(** * The data-preprocessing pipeline of the labelling application

    A shallow embedding of [src/utils.py] and of the export route of
    [src/app.py]: the text normaliser ([turkish_characters], [clean_text]),
    the dataset cleaner and extractor ([data_cleaner], [csv_to_xlsx],
    [extract_text_and_ids_from_dataset]) and the annotation aggregator
    ([json_to_csv], [export_json]).

    Python strings are sequences of Unicode code points, and the normaliser
    works on non-ASCII letters, so a string is a list of code points. *)

From Stdlib Require Import ZArith NArith List Bool Lia Ascii String Permutation.
From stdpp Require Import base option list gmap.
Import ListNotations.

Local Open Scope N_scope.
#[local] Set Warnings "-register-all".

(** ** Python strings *)

Abbreviation str := (list N).

(** An ASCII literal as a Python string. *)
Definition u (s : string) : list N := map N_of_ascii (list_ascii_of_string s).

Definition in_range (lo hi c : N) : bool := (lo <=? c) && (c <=? hi).

Definition is_ascii (c : N) : bool := c <? 128.
Definition ascii_upper (c : N) : bool := in_range 65 90 c.
Definition ascii_lower (c : N) : bool := in_range 97 122 c.
Definition ascii_digit (c : N) : bool := in_range 48 57 c.
Definition ascii_alnum (c : N) : bool :=
  ascii_digit c || ascii_upper c || ascii_lower c.
(** The ASCII code points for which [str.isspace] holds: tab, LF, VT, FF,
    CR, the four separators FS..US, and the space. *)
Definition ascii_space (c : N) : bool :=
  in_range 9 13 c || in_range 28 31 c || (c =? 32).

(** What the interpreter's Unicode tables say about code points beyond
    ASCII.  They are not part of the repository, so the normaliser is
    parameterised by them.  [uni_lower pre c suf] is the lower-case
    expansion of [c] when it stands between [rev pre] and [suf] (the
    context matters for the capital sigma only). *)
Class unicode_db := {
  uni_lower : list N -> N -> list N -> list N;
  uni_alnum : N -> bool;
  uni_space : N -> bool;
  uni_decimal : N -> bool
}.

(** Lower-casing never produces an ASCII capital. *)
Definition db_sound (db : unicode_db) : Prop :=
  forall pre c suf d,
    is_ascii c = false -> In d (uni_lower pre c suf) -> ascii_upper d = false.

(** The tables that know nothing beyond ASCII: every other code point is a
    caseless symbol. *)
Definition ascii_db : unicode_db :=
  {| uni_lower := fun _ c _ => [c];
     uni_alnum := fun _ => false;
     uni_space := fun _ => false;
     uni_decimal := fun _ => false |}.

Section Text.
Context {db : unicode_db}.

(** [str.isspace] on one code point; also the regex class [\s]. *)
Definition is_space (c : N) : bool :=
  if is_ascii c then ascii_space c else uni_space c.
(** The regex class [\w]: alphanumeric or underscore. *)
Definition is_word (c : N) : bool :=
  if is_ascii c then ascii_alnum c || (c =? 95) else uni_alnum c.
(** The regex class [\d]. *)
Definition is_digit (c : N) : bool :=
  if is_ascii c then ascii_digit c else uni_decimal c.

(** [str.lower] *)
Definition lower_cp (pre : list N) (c : N) (suf : list N) : list N :=
  if ascii_upper c then [c + 32]
  else if is_ascii c then [c]
  else uni_lower pre c suf.

Fixpoint lower_from (pre : list N) (s : list N) : list N :=
  match s with
  | [] => []
  | c :: s' => lower_cp pre c s' ++ lower_from (c :: pre) s'
  end.

Definition lower (s : str) : str := lower_from [] s.

(** [str.split()] with no argument: the maximal runs of non-space code
    points.  [tok] is the token being read, reversed. *)
Fixpoint split_go (tok : list N) (s : list N) : list (list N) :=
  match s with
  | [] => match tok with [] => [] | _ => [rev tok] end
  | c :: s' =>
      if is_space c
      then match tok with
           | [] => split_go [] s'
           | _ => rev tok :: split_go [] s'
           end
      else split_go (c :: tok) s'
  end.

Definition split (s : str) : list str := split_go [] s.

(** [sep.join(items)] *)
Fixpoint join (sep : str) (items : list str) : str :=
  match items with
  | [] => []
  | [w] => w
  | w :: ws => w ++ sep ++ join sep ws
  end.

(** [c in s] for a one-character [c]. *)
Definition has_char (c : N) (s : str) : bool := existsb (N.eqb c) s.

(** ** Regular expressions

    The three patterns of [clean_text] are alternations of sequences of
    quantified character classes, so this is the fragment embedded.  The
    matcher is the backtracking one of [re]: alternatives are tried from
    left to right, a greedy quantifier tries the longest repetition first
    and a lazy one the shortest. *)

Inductive quant := One | PlusG | StarG | PlusL.

Inductive atom :=
  | Bol                                   (* ^ *)
  | Cls (p : N -> bool) (q : quant).      (* a class, quantified *)

Definition branch := list atom.
Definition regex := list branch.

(** [p+] followed by [k]: the number of code points consumed. *)
Fixpoint rep_greedy (p : N -> bool) (k : list N -> option nat) (s : list N)
  : option nat :=
  match s with
  | c :: s' =>
      if p c
      then match rep_greedy p k s' with
           | Some n => Some (S n)
           | None => S <$> k s'
           end
      else None
  | [] => None
  end.

(** [p+?] followed by [k]. *)
Fixpoint rep_lazy (p : N -> bool) (k : list N -> option nat) (s : list N)
  : option nat :=
  match s with
  | c :: s' =>
      if p c
      then match k s' with
           | Some n => Some (S n)
           | None => S <$> rep_lazy p k s'
           end
      else None
  | [] => None
  end.

(** [bol] says whether the position is the start of the subject. *)
Fixpoint match_branch (b : branch) (bol : bool) (s : list N) : option nat :=
  match b with
  | [] => Some O
  | Bol :: b' => if bol then match_branch b' bol s else None
  | Cls p One :: b' =>
      match s with
      | c :: s' => if p c then S <$> match_branch b' false s' else None
      | [] => None
      end
  | Cls p PlusG :: b' => rep_greedy p (match_branch b' false) s
  | Cls p StarG :: b' =>
      match rep_greedy p (match_branch b' false) s with
      | Some n => Some n
      | None => match_branch b' bol s
      end
  | Cls p PlusL :: b' => rep_lazy p (match_branch b' false) s
  end.

Fixpoint match_regex (r : regex) (bol : bool) (s : list N) : option nat :=
  match r with
  | [] => None
  | b :: r' =>
      match match_branch b bol s with
      | Some n => Some n
      | None => match_regex r' bol s
      end
  end.

(** [re.sub(r, repl, s)]: scan from the left; where the pattern matches,
    emit [repl] and jump over the match, otherwise copy one code point.
    [skip] counts the code points of the current match still to jump. *)
Fixpoint sub_from (r : regex) (repl : str) (bol : bool) (skip : nat)
    (s : list N) : list N :=
  match s with
  | [] =>
      match skip, match_regex r bol [] with
      | O, Some _ => repl
      | _, _ => []
      end
  | c :: s' =>
      match skip with
      | S n => sub_from r repl false n s'
      | O =>
          match match_regex r bol s with
          | Some (S n) => repl ++ sub_from r repl false n s'
          | Some O => repl ++ c :: sub_from r repl false O s'
          | None => c :: sub_from r repl false O s'
          end
      end
  end.

Definition re_sub (r : regex) (repl : str) (s : str) : str :=
  sub_from r repl true O s.

(** A literal, as a sequence of one-character classes. *)
Definition lit (s : string) : branch :=
  map (fun c => Cls (N.eqb c) One) (u s).

(** ** The normaliser *)

(** [str.maketrans("ğĞıİöÖüÜşŞçÇ", "gGiIoOuUsScC")] *)
Definition turkish_table : list (N * N) :=
  [ (0x11f, 103); (0x11e, 71); (0x131, 105); (0x130, 73);
    (0xf6, 111); (0xd6, 79); (0xfc, 117); (0xdc, 85);
    (0x15f, 115); (0x15e, 83); (0xe7, 99); (0xc7, 67) ].

Fixpoint translate_cp (t : list (N * N)) (c : N) : N :=
  match t with
  | [] => c
  | (a, b) :: t' => if c =? a then b else translate_cp t' c
  end.

Definition turkish_characters (text : str) : str :=
  map (translate_cp turkish_table) text.

(** [[^0-9A-Za-z \t]] *)
Definition not_plain (c : N) : bool :=
  negb (ascii_digit c || ascii_upper c || ascii_lower c || (c =? 32) || (c =? 9)).

(** [.] without DOTALL: anything but a line feed. *)
Definition dot (c : N) : bool := negb (c =? 10).

(** [(@\[A-Za-z0-9]+)|([^0-9A-Za-z \t])|(\w+:\/\/\S+)|^rt|http.+?]
    In the first alternative the bracket is escaped, so it reads: the
    literal [@[A-Za-z0-9] followed by one or more closing brackets. *)
Definition re_noise : regex :=
  [ lit "@[A-Za-z0-9" ++ [Cls (N.eqb 93) PlusG];
    [Cls not_plain One];
    [Cls is_word PlusG] ++ lit "://" ++ [Cls (fun c => negb (is_space c)) PlusG];
    Bol :: lit "rt";
    lit "http" ++ [Cls dot PlusL] ].

(** [\W+\s*] (written over several lines under [re.VERBOSE]) *)
Definition re_gap : regex :=
  [ [Cls (fun c => negb (is_word c)) PlusG; Cls is_space StarG] ].

(** [\d+] *)
Definition re_digits : regex := [ [Cls is_digit PlusG] ].

Definition keep_word (word : str) : bool :=
  negb (has_char 35 word) && negb (has_char 64 word).

Definition clean_text (text : str) : str :=
  let text := lower text in
  let text := join (u " ") (List.filter keep_word (split text)) in
  let text := re_sub re_noise [] text in
  let text := re_sub re_gap (u " ") text in
  let text := re_sub re_digits [] text in
  text.

(** The composition applied to every cell of the [text] column by
    [data_cleaner]. *)
Definition normalize (text : str) : str := clean_text (turkish_characters text).

End Text.

(** ** When is a text already clean? *)

(** [s.startswith(p)] *)
Fixpoint starts_with (p s : str) : bool :=
  match p, s with
  | [], _ => true
  | a :: p', c :: s' => (a =? c) && starts_with p' s'
  | _ :: _, [] => false
  end.

(** [http] followed by one more code point that is not a line feed. *)
Definition http_at (s : str) : bool :=
  starts_with (u "http") s &&
  match drop 4 s with d :: _ => dot d | [] => false end.

Fixpoint has_http (s : str) : bool :=
  match s with
  | [] => false
  | _ :: s' => http_at s || has_http s'
  end.

(** The pattern matches nowhere in [s]; [re.sub] then changes nothing. *)
Fixpoint quiet (r : regex) (bol : bool) (s : list N) : Prop :=
  match s with
  | [] => match_regex r bol [] = None
  | _ :: t => match_regex r bol s = None /\ quiet r false t
  end.

(** Lower-case ASCII letters and the space. *)
Definition letter_or_space (c : N) : bool := ascii_lower c || (c =? 32).

(** Every space stands between two other code points that are not spaces:
    [after_space] remembers whether the previous code point was one. *)
Fixpoint spaced_in (after_space : bool) (s : str) : bool :=
  match s with
  | [] => negb after_space
  | c :: s' =>
      if c =? 32 then negb after_space && spaced_in true s'
      else spaced_in false s'
  end.

Definition spaced (s : str) : bool :=
  match s with
  | [] => true
  | _ => spaced_in true s
  end.

(** Words separated by single spaces, no space at either end, no leading
    [rt], no [http] with something after it. *)
Definition tidy (s : str) : bool :=
  spaced s && negb (starts_with (u "rt") s) && negb (has_http s).

(** [p in s] for strings: [p] occurs somewhere in [s]. *)
Fixpoint contains (p s : str) : bool :=
  starts_with p s ||
  match s with
  | [] => false
  | _ :: s' => contains p s'
  end.

(** [s.replace(old, new)]: every occurrence, from the left, without
    overlap.  [skip] counts the code points of the occurrence just
    replaced that are still to be jumped over. *)
Fixpoint replace_from (old new : str) (skip : nat) (s : str) : str :=
  match s with
  | [] => []
  | c :: s' =>
      match skip with
      | S n => replace_from old new n s'
      | O =>
          if starts_with old s
          then new ++ replace_from old new (length old - 1) s'
          else c :: replace_from old new O s'
      end
  end.

Definition replace (old new s : str) : str :=
  match old with
  | [] => new ++ flat_map (fun c => c :: new) s
  | _ => replace_from old new O s
  end.

(** ** Python values, exceptions, files *)

(** The values that JSON documents and table cells are made of.  A float is
    kept by its bit pattern: the code below only ever asks whether a value
    is a string, a list or a dictionary. *)
Inductive value :=
  | VNone
  | VBool (b : bool)
  | VInt (z : Z)
  | VFloat (bits : N)
  | VStr (s : str)
  | VList (l : list value)
  | VDict (d : list (str * value)).

Inductive exn :=
  | KeyError (k : value)
  | TypeError (msg : string)
  | AttributeError (msg : string)
  | ValueError (msg : string)
  | FileNotFoundError (msg : string)
  | UnboundLocalError (msg : string)
  | UnicodeEncodeError (msg : string)
  | OSError (msg : string).

(** A computation that returns or raises. *)
Inductive outcome (A : Type) :=
  | Ret (a : A)
  | Raise (e : exn).
Arguments Ret {A} a.
Arguments Raise {A} e.

Global Instance outcome_ret : MRet outcome := fun A a => Ret a.
Global Instance outcome_bind : MBind outcome := fun A B f m =>
  match m with
  | Ret a => f a
  | Raise e => Raise e
  end.
Global Instance outcome_fmap : FMap outcome := fun A B f m =>
  match m with
  | Ret a => Ret (f a)
  | Raise e => Raise e
  end.

(** [[f(x) for x in l]], stopping at the first exception. *)
Fixpoint traverse {A B} (f : A -> outcome B) (l : list A) : outcome (list B) :=
  match l with
  | [] => Ret []
  | x :: l' => y ← f x; ys ← traverse f l'; Ret (y :: ys)
  end.

(** A [DataFrame]: its columns in order, each a name and its cells. *)
Definition frame := list (str * list value).

(** What a file holds, at the level its reader parses it to: a delimited
    file and a workbook hold a table, a JSON file holds a value; [Csv df] is
    both the file [read_csv] parses to [df] and the file [to_csv] prints
    from [df].  [Truncated] is the file a writer leaves when it fails
    part-way: the text written so far, which is no complete document. *)
Inductive file :=
  | Csv (df : frame)
  | Xlsx (df : frame)
  | Json (v : value)
  | Truncated.

(** The file store, by path. *)
Abbreviation store := (gmap str file).

(** *** Dictionaries and iteration *)

Fixpoint dict_get {A} (k : str) (d : list (str * A)) : option A :=
  match d with
  | [] => None
  | (k', v) :: d' => if decide (k = k') then Some v else dict_get k d'
  end.

(** [d.get(k)] on a request body. *)
Definition py_get (v : value) (k : string) : outcome value :=
  match v with
  | VDict d => Ret (default VNone (dict_get (u k) d))
  | _ => Raise (AttributeError "object has no attribute 'get'")
  end.

(** [v[k]] with a string key. *)
Definition getitem (v : value) (k : string) : outcome value :=
  match v with
  | VDict d =>
      match dict_get (u k) d with
      | Some x => Ret x
      | None => Raise (KeyError (VStr (u k)))
      end
  | VStr _ | VList _ => Raise (TypeError "indices must be integers")
  | _ => Raise (TypeError "object is not subscriptable")
  end.

(** [for x in v]: the items a loop over [v] sees. *)
Definition py_iter (v : value) : outcome (list value) :=
  match v with
  | VList l => Ret l
  | VDict d => Ret (map (fun kv => VStr kv.1) d)
  | VStr s => Ret (map (fun c => VStr [c]) s)
  | _ => Raise (TypeError "object is not iterable")
  end.

(** [d[k].append(x)] on a dictionary of lists. *)
Definition append_to (k : str) (x : value) (d : frame) : frame :=
  map (fun col => if decide (col.1 = k) then (col.1, col.2 ++ [x]) else col) d.

(** The strings of a list, when all its items are strings. *)
Fixpoint strs_of (l : list value) : option (list str) :=
  match l with
  | [] => Some []
  | VStr s :: l' => cons s <$> strs_of l'
  | _ :: _ => None
  end.

(** *** Tables *)

Definition column (name : str) (df : frame) : option (list value) :=
  dict_get name df.

(** [df[name] = cells]: in place when the column exists, else appended. *)
Definition set_column (name : str) (cells : list value) (df : frame) : frame :=
  match column name df with
  | Some _ => map (fun col => if decide (col.1 = name) then (name, cells) else col) df
  | None => df ++ [(name, cells)]
  end.

(** [usecols=names]: the named columns, in the order the file has them. *)
Definition usecols (names : list str) (df : frame) : outcome frame :=
  if forallb (fun n => bool_decide (is_Some (column n df))) names
  then Ret (List.filter (fun col => bool_decide (col.1 ∈ names)) df)
  else Raise (ValueError "Usecols do not match columns").

(** [list(df.itertuples(index=False, name=None))]: the rows, each with its
    cells in column order. *)
Fixpoint rows_of (cols : list (list value)) : list (list value) :=
  match cols with
  | [] => []
  | [c] => map (fun v => [v]) c
  | c :: cs => zip_with cons c (rows_of cs)
  end.

Definition itertuples (df : frame) : list (list value) := rows_of (map snd df).

Definition read_csv (fs : store) (path : str) : outcome frame :=
  match fs !! path with
  | None => Raise (FileNotFoundError "No such file or directory")
  | Some (Csv df) => Ret df
  | Some _ => Raise (ValueError "Error tokenizing data")
  end.

Definition read_excel (fs : store) (path : str) : outcome frame :=
  match fs !! path with
  | None => Raise (FileNotFoundError "No such file or directory")
  | Some (Xlsx df) => Ret df
  | Some _ => Raise (ValueError "Excel file format cannot be determined")
  end.

(** *** Writing text

    A text file is opened as UTF-8.  Every code point has an encoding but
    the surrogates, which a [str] may hold (a JSON body may escape one). *)
Definition surrogate (c : N) : bool := (55296 <=? c) && (c <=? 57343).

Definition utf8_str (s : str) : bool := forallb (fun c => negb (surrogate c)) s.

Fixpoint utf8_ok (v : value) : bool :=
  match v with
  | VStr s => utf8_str s
  | VList l => forallb utf8_ok l
  | VDict d => forallb (fun kv => utf8_str (fst kv) && utf8_ok (snd kv)) d
  | _ => true
  end.

(** [open(path, 'w')]: whether the operating system opens a path for
    writing (it refuses a directory, a name in a directory that is not
    there, a name with a NUL, a name that is too long) is its own business;
    [None] when it does, the [OSError] when it does not. *)
Class file_system := { open_w : str -> option exn }.

(** ** The annotation aggregator *)

(** The order in which [list(set(l))] lists the distinct strings of [l] is
    the interpreter's business. *)
Class set_impl := { set_order : list str -> list str }.

(** Whatever the order, the result has each string of [l] once. *)
Definition set_order_ok (si : set_impl) : Prop :=
  forall l, NoDup (set_order l) /\ forall x, In x (set_order l) <-> In x l.

(** The instance that keeps the first occurrences in their order. *)
Definition first_seen : set_impl := {| set_order := remove_dups |}.

Section Aggregator.
Context {si : set_impl}.
(** The module-level folder set once by [set_folders]. *)
Variable CLEANED_DATA_FOLDER : str.

Definition translate_json : list (str * str) :=
  [ (u "FIRMA", u "company");
    (u "POZITIF", u "positive");
    (u "NEGATIF", u "negative");
    (u "NOTR", u "notr") ].

(** [translate_json[k]] *)
Definition lookup_tag (k : value) : outcome str :=
  match k with
  | VStr s =>
      match dict_get s translate_json with
      | Some eng => Ret eng
      | None => Raise (KeyError k)
      end
  | VList _ | VDict _ => Raise (TypeError "unhashable type")
  | _ => Raise (KeyError k)
  end.

Definition empty_df_data : frame :=
  [ (u "id", []); (u "text", []); (u "company", []);
    (u "positive", []); (u "negative", []); (u "notr", []) ].

Definition empty_temp_data : frame :=
  [ (u "company", []); (u "positive", []); (u "negative", []); (u "notr", []) ].

(** The body of the [try]: one annotation filed under its category. *)
Definition file_annotation (temp_data : frame) (x : value) : outcome frame :=
  tag ← getitem x "tag";
  eng_version ← lookup_tag tag;
  text ← getitem x "text";
  Ret (append_to eng_version text temp_data).

(** [for x in annotations]: whatever the [try] raises is returned by
    [json_to_csv] at once ([inr]). *)
Fixpoint file_annotations (temp_data : frame) (xs : list value) : frame + exn :=
  match xs with
  | [] => inl temp_data
  | x :: xs' =>
      match file_annotation temp_data x with
      | Ret t => file_annotations t xs'
      | Raise err => inr err
      end
  end.

(** ['|'.join(list(set(texts)))], or [''] for an empty list.  [set] needs
    hashable items and [join] needs strings; both raise [TypeError], and a
    list with an item that is not a string fails one of them. *)
Definition category_field (texts : list value) : outcome value :=
  match texts with
  | [] => Ret (VStr [])
  | _ =>
      match strs_of texts with
      | Some ss => Ret (VStr (join (u "|") (set_order ss)))
      | None => Raise (TypeError "unhashable item or non-str item")
      end
  end.

(** [for b in temp_data] *)
Fixpoint fill_categories (temp_data : frame) (df_data : frame) : outcome frame :=
  match temp_data with
  | [] => Ret df_data
  | (b, texts) :: rest =>
      new_value ← category_field texts;
      fill_categories rest (append_to b new_value df_data)
  end.

(** The body of [for i in data]. *)
Definition aggregate_event (df_data : frame) (i : value) : outcome (frame + exn) :=
  page ← getitem i "page";
  let df_data := append_to (u "id") page df_data in
  text ← getitem i "text";
  let df_data := append_to (u "text") text df_data in
  annotations ← getitem i "annotations";
  xs ← py_iter annotations;
  match file_annotations empty_temp_data xs with
  | inr err => Ret (inr err)
  | inl temp_data => inl <$> fill_categories temp_data df_data
  end.

Fixpoint aggregate_events (df_data : frame) (data : list value)
  : outcome (frame + exn) :=
  match data with
  | [] => Ret (inl df_data)
  | i :: rest =>
      r ← aggregate_event df_data i;
      match r with
      | inl df_data' => aggregate_events df_data' rest
      | inr err => Ret (inr err)
      end
  end.

Definition json_load (fs : store) (path : str) : outcome value :=
  match fs !! path with
  | None => Raise (FileNotFoundError "No such file or directory")
  | Some (Json v) => Ret v
  | Some _ => Raise (ValueError "JSONDecodeError")
  end.

(** [json_to_csv]: the value it returns ([None], or the exception of an
    annotation) or the exception it raises, and the file store it leaves. *)
Definition json_to_csv (fs : store) (filename : str)
  : outcome (option exn) * store :=
  let r :=
    data ← json_load fs (CLEANED_DATA_FOLDER ++ u "/" ++ filename);
    items ← py_iter data;
    aggregate_events empty_df_data items in
  match r with
  | Raise e => (Raise e, fs)
  | Ret (inr err) => (Ret (Some err), fs)
  | Ret (inl df) =>
      (Ret None,
       <[CLEANED_DATA_FOLDER ++ u "/" ++ replace (u "json") (u "csv") filename
           := Csv df]> fs)
  end.

(** *** The export route *)

Inductive response :=
  | iserr (msg : string) (err : exn)
  | redirect (endpoint : string).

(** The external collection behind [save_to_db]: whether it takes one more
    document is its own business. *)
Class sink := { insert_one : list value -> value -> option exn }.

Record world := { files : gmap str file; datasets : list value }.

Context {sk : sink} {os : file_system}.

(** [with open(path, 'w', encoding='utf-8') as json_file:
         json.dump(data, json_file, ensure_ascii=False)]
    When the path cannot be opened nothing is written.  Once it is open the
    file is created or emptied; a text with a surrogate cannot be encoded,
    [write] raises inside [json.dump] and the file keeps what was written
    before. *)
Definition json_dump_to (fs : store) (path : str) (data : value)
  : outcome unit * store :=
  match open_w path with
  | Some e => (Raise e, fs)
  | None =>
      if utf8_ok data
      then (Ret (), <[path := Json data]> fs)
      else (Raise (UnicodeEncodeError "surrogates not allowed"),
            <[path := Truncated]> fs)
  end.

Definition save_to_db (docs : list value) (request : value)
  : option exn * list value :=
  match insert_one docs request with
  | None => (None, docs ++ [request])
  | Some err => (Some err, docs)
  end.

(** [v == w] when [w] is one of the literals of the guard: [None], [''],
    [{}] and [[]] are each equal to themselves only. *)
Definition eq_literal (v w : value) : bool :=
  match v, w with
  | VNone, VNone => true
  | VStr [], VStr [] => true
  | VDict [], VDict [] => true
  | VList [], VList [] => true
  | _, _ => false
  end.

(** [v in l] for a list of such literals. *)
Definition is_in (v : value) (l : list value) : bool := existsb (eq_literal v) l.

(** [v.replace(old, new)], a method of strings only. *)
Definition replace_method (v : value) (old new : string) : outcome str :=
  match v with
  | VStr s => Ret (replace (u old) (u new) s)
  | _ => Raise (AttributeError "object has no attribute 'replace'")
  end.

(** The condition of the guard:
    [req.get('dataset') in [None, ''] and req.get('data') in [None, '', {}, []]] *)
Definition nothing_provided (req : value) : outcome bool :=
  dataset ← py_get req "dataset";
  if is_in dataset [VNone; VStr []]
  then data ← py_get req "data"; Ret (is_in data [VNone; VStr []; VDict []; VList []])
  else Ret false.

(** [export_json]; [req] is what [request.get_json()] gave.  The two early
    exits call [res.iserr] with the message alone, which [iserr] (two
    required parameters) answers with a [TypeError]. *)
Definition export_json (w : world) (req : value) : outcome response * world :=
  match req with
  | VNone => (Raise (TypeError "iserr() missing 1 required positional argument: 'err'"), w)
  | _ =>
  match nothing_provided req with
  | Raise e => (Raise e, w)
  | Ret true => (Raise (TypeError "iserr() missing 1 required positional argument: 'err'"), w)
  | Ret false =>
  match (dataset ← py_get req "dataset";
         name ← replace_method dataset "xlsx" "json";
         filename ← replace_method (VStr name) "csv" "json";
         data ← py_get req "data";
         Ret (filename, data)) with
  | Raise e => (Raise e, w)
  | Ret (filename, data) =>
      match json_dump_to (files w) (CLEANED_DATA_FOLDER ++ u "/" ++ filename) data with
      | (Raise e, fs) => (Raise e, {| files := fs; datasets := datasets w |})
      | (Ret _, fs) =>
      match json_to_csv fs filename with
      | (Raise e, fs') => (Raise e, {| files := fs'; datasets := datasets w |})
      | (Ret (Some err), fs') =>
          (Ret (iserr "Something went wrong" err), {| files := fs'; datasets := datasets w |})
      | (Ret None, fs') =>
          match save_to_db (datasets w) req with
          | (Some err, docs) =>
              (Ret (iserr "Something went wrong" err), {| files := fs'; datasets := docs |})
          | (None, docs) =>
              match save_to_db docs req with
              | (Some err, docs') =>
                  (Ret (iserr "Something went wrong." err), {| files := fs'; datasets := docs' |})
              | (None, docs') =>
                  (Ret (redirect "export_data"), {| files := fs'; datasets := docs' |})
              end
          end
      end
      end
  end
  end
  end.

End Aggregator.

(** ** Cleaning a dataset and reading it back *)

(** What pandas and openpyxl do to cells, beyond the two cases written out
    in [astype_int64] and [astype_string]. *)
Class pandas_lib := {
  (* [astype('int64')] on a cell that is not an integer of that range: the
     integer the cast makes of it (of a float, of an integer that is too
     large) before it is stored in 64 bits, or what the cast raises *)
  int64_of : value -> outcome Z;
  (* [astype('string')] on a cell that is not a string: its text, or
     [None] for a missing cell, which stays missing *)
  string_of : value -> option str;
  (* the table read back from the workbook that holds the text of the
     fields of a delimited file *)
  sheet_of : frame -> outcome frame
}.

(** The instance with the strictest casts: only what is already of the
    type goes through. *)
Definition strict_pandas : pandas_lib :=
  {| int64_of := fun _ => Raise (ValueError "invalid literal for int()");
     string_of := fun _ => None;
     sheet_of := fun df => Ret df |}.

Section Dataset.
Context {db : unicode_db} {pl : pandas_lib}.

Definition UPLOADS : str := u "static/uploads/".
Definition CLEAN_DATA : str := u "static/uploads/clean_data/".

Definition in_int64 (z : Z) : bool :=
  ((- 2 ^ 63 <=? z) && (z <? 2 ^ 63))%Z.

(** The integer a 64-bit cell holds when [z] is stored in it. *)
Definition wrap64 (z : Z) : Z := ((z + 2 ^ 63) mod 2 ^ 64 - 2 ^ 63)%Z.

(** A cell of the [int64] column that [astype('int64')] makes. *)
Definition astype_int64 (v : value) : outcome value :=
  match v with
  | VInt z =>
      if in_int64 z then Ret (VInt z)
      else (fun i => VInt (wrap64 i)) <$> int64_of v
  | _ => (fun i => VInt (wrap64 i)) <$> int64_of v
  end.

(** A cell of the [string] column that [astype('string')] makes: a string,
    or the missing value ([<NA>], written [VNone]). *)
Definition astype_string (v : value) : value :=
  match v with
  | VStr s => VStr s
  | _ => match string_of v with Some s => VStr s | None => VNone end
  end.

(** [csv_to_xlsx]: what it returns or raises, and the store it leaves. *)
Definition csv_to_xlsx (fs : store) (filename : str) : outcome unit * store :=
  match read_csv fs (CLEAN_DATA ++ filename) with
  | Raise e => (Raise e, fs)
  | Ret df =>
      match sheet_of df with
      | Raise e => (Raise e, fs)
      | Ret sheet =>
          (Ret (),
           <[CLEAN_DATA ++ replace (u "csv") (u "xlsx") filename := Xlsx sheet]> fs)
      end
  end.

(** The two [if]s at the head of [data_cleaner] and the [raise] after them. *)
Definition load_raw (fs : store) (filename : str) : outcome frame :=
  df ← (if contains (u "csv") filename
        then Some <$> read_csv fs (UPLOADS ++ filename)
        else Ret None);
  df ← (if contains (u "xslx") filename
        then Some <$> read_excel fs (UPLOADS ++ filename)
        else Ret df);
  match df with
  | None => Raise (FileNotFoundError "DataFrame is not implemented via files.")
  | Some df => Ret df
  end.

(** [turkish_characters] then [clean_text] on one cell; [translate] is a
    method of strings only. *)
Definition clean_cell (v : value) : outcome value :=
  match v with
  | VStr s => Ret (VStr (clean_text (turkish_characters s)))
  | _ => Raise (AttributeError "object has no attribute 'translate'")
  end.

(** [df.text] *)
Definition text_attr (df : frame) : outcome (list value) :=
  match column (u "text") df with
  | Some cells => Ret cells
  | None => Raise (AttributeError "'DataFrame' object has no attribute 'text'")
  end.

Definition cleaning_failed : string :=
  "Verilen dataset temizlenirken bir hata meyadana geldi.".

(** [data_cleaner]: the response and the store it leaves.  Whatever the
    [try] raises becomes an error response; what was written before stays. *)
Definition data_cleaner (fs : store) (filename : str) : response * store :=
  match (df ← load_raw fs filename;
         texts ← text_attr df;
         text_list ← traverse clean_cell texts;
         Ret (set_column (u "clean_text") text_list df)) with
  | Raise e => (iserr cleaning_failed e, fs)
  | Ret df =>
      let fs := <[CLEAN_DATA ++ filename := Csv df]> fs in
      match csv_to_xlsx fs filename with
      | (Raise e, fs') => (iserr cleaning_failed e, fs')
      | (Ret _, fs') => (redirect "clean_data", fs')
      end
  end.

Definition id_text : list str := [u "id"; u "text"].

(** The two [if]s at the head of [extract_text_and_ids_from_dataset]; with
    neither, [df] is unbound where it is used next. *)
Definition load_clean (fs : store) (filename : str) : outcome frame :=
  df ← (if contains (u "csv") filename
        then Some <$> (read_csv fs (CLEAN_DATA ++ filename) ≫= usecols id_text)
        else Ret None);
  df ← (if contains (u "xlsx") filename
        then Some <$> (read_excel fs (CLEAN_DATA ++ filename) ≫= usecols id_text)
        else Ret df);
  match df with
  | None => Raise (UnboundLocalError "local variable 'df' referenced before assignment")
  | Some df => Ret df
  end.


(** [df[name]] *)
Definition df_getitem (df : frame) (name : str) : outcome (list value) :=
  match column name df with
  | Some cells => Ret cells
  | None => Raise (KeyError (VStr name))
  end.

Definition extract_text_and_ids_from_dataset (fs : store) (filename : str)
  : outcome (list (list value)) :=
  df ← load_clean fs filename;
  ids ← df_getitem df (u "id");
  ids ← traverse astype_int64 ids;
  let df := set_column (u "id") ids df in
  texts ← df_getitem df (u "text");
  let df := set_column (u "text") (map astype_string texts) df in
  Ret (itertuples df).

End Dataset.

(** ** Submissions that follow the documented shape

    [{ "page": int, "text": str, "annotations": [ {"tag": str, "text": str} ] }] *)

Record annotation := { an_tag : str; an_text : str }.
Record event := { ev_page : Z; ev_text : str; ev_annotations : list annotation }.

Definition annotation_json (a : annotation) : value :=
  VDict [ (u "tag", VStr (an_tag a)); (u "text", VStr (an_text a)) ].

Definition event_json (e : event) : value :=
  VDict [ (u "page", VInt (ev_page e));
          (u "text", VStr (ev_text e));
          (u "annotations", VList (map annotation_json (ev_annotations e))) ].

(** The category a tag stands for, if it is one of the four. *)
Definition category_of (tag : str) : option str := dict_get tag translate_json.

Definition known_tag (tag : str) : bool :=
  match category_of tag with Some _ => true | None => false end.

(** The first tag, in reading order, that is not one of the four. *)
Fixpoint first_unknown_tag (l : list annotation) : option str :=
  match l with
  | [] => None
  | a :: l' => if known_tag (an_tag a) then first_unknown_tag l' else Some (an_tag a)
  end.

Fixpoint first_unknown (events : list event) : option str :=
  match events with
  | [] => None
  | e :: rest =>
      match first_unknown_tag (ev_annotations e) with
      | Some t => Some t
      | None => first_unknown rest
      end
  end.

Section ExportTable.
Context {si : set_impl}.

(** The texts an event files under a category, in annotation order. *)
Definition texts_for (cat : str) (l : list annotation) : list str :=
  map an_text
    (List.filter (fun a => bool_decide (category_of (an_tag a) = Some cat)) l).

(** The field of a category: the distinct texts joined by [|]. *)
Definition field_of (cat : str) (e : event) : value :=
  let texts := texts_for cat (ev_annotations e) in
  match texts with
  | [] => VStr []
  | _ :: _ => VStr (join (u "|") (set_order texts))
  end.

(** The table of the aggregated export, one row per event. *)
Definition export_frame (events : list event) : frame :=
  [ (u "id", map (fun e => VInt (ev_page e)) events);
    (u "text", map (fun e => VStr (ev_text e)) events);
    (u "company", map (field_of (u "company")) events);
    (u "positive", map (field_of (u "positive")) events);
    (u "negative", map (field_of (u "negative")) events);
    (u "notr", map (field_of (u "notr")) events) ].

End ExportTable.

(** ** Valid cells, rows *)

(** An identifier that already is a 64-bit integer; a text that already is
    a string. *)
Definition valid_id (v : value) : bool :=
  match v with VInt z => in_int64 z | _ => false end.
Definition is_string (v : value) : bool :=
  match v with VStr _ => true | _ => false end.

(** A row of a table whose columns are named [id] or [text], with its cells
    in the order of the columns. *)
Definition row_in_order (names : list str) (i t : value) : list value :=
  map (fun n => if decide (n = u "id") then i else t) names.

(** The event of the specification's worked example. *)
Definition scenario_json : value :=
  VDict [ (u "page", VInt 1);
          (u "text", VStr (u "hello world"));
          (u "annotations", VList [
             VDict [ (u "tag", VStr (u "POZITIF")); (u "text", VStr (u "hello")) ];
             VDict [ (u "tag", VStr (u "POZITIF")); (u "text", VStr (u "hello")) ];
             VDict [ (u "tag", VStr (u "NEGATIF")); (u "text", VStr (u "world")) ] ]) ].

Definition scenario_event : event :=
  {| ev_page := 1;
     ev_text := u "hello world";
     ev_annotations :=
       [ {| an_tag := u "POZITIF"; an_text := u "hello" |};
         {| an_tag := u "POZITIF"; an_text := u "hello" |};
         {| an_tag := u "NEGATIF"; an_text := u "world" |} ] |}.

(** A collection that takes every document. *)
Definition accepting_sink : sink := {| insert_one := fun _ _ => None |}.

(** ** Sample data *)

Definition sample_folder : str := u "static/uploads/clean_data".

(** An event with a tag outside the vocabulary. *)
Definition unknown_event : event :=
  {| ev_page := 2;
     ev_text := u "x";
     ev_annotations := [ {| an_tag := u "UNKNOWN"; an_text := u "x" |} ] |}.

(** A submission file holding the worked example and then [unknown_event]. *)
Definition mixed_store : store :=
  {[ sample_folder ++ u "/" ++ u "d.json" :=
       Json (VList (map event_json [scenario_event; unknown_event])) ]}.

(** A submission file holding the worked example twice (one page, two events). *)
Definition twice_store : store :=
  {[ sample_folder ++ u "/" ++ u "d.json" :=
       Json (VList (map event_json [scenario_event; scenario_event])) ]}.

Definition scenario_store : store :=
  {[ sample_folder ++ u "/" ++ u "d.json" := Json (VList [scenario_json]) ]}.

Definition empty_world : world := {| files := ∅; datasets := [] |}.

(** The worked example as a request body for the dataset ["d.csv"]. *)
Definition scenario_request : value :=
  VDict [ (u "dataset", VStr (u "d.csv")); (u "data", VList [scenario_json]) ].


Definition sample_raw : frame :=
  [ (u "id", [VInt 1; VInt 2]);
    (u "text", [VStr (u "Merhaba! 12"); VStr (u "a b")]) ].

(** An uploaded delimited file, under a plain name and under a name that
    also contains [xlsx]. *)
Definition upload_store : store := {[ UPLOADS ++ u "a.csv" := Csv sample_raw ]}.
Definition upload_store_xlsx_name : store :=
  {[ UPLOADS ++ u "xlsx_a.csv" := Csv sample_raw ]}.

(** A cleaned file as [data_cleaner] leaves it. *)
Definition cleaned_store : store :=
  {[ CLEAN_DATA ++ u "a.csv" :=
       Csv (sample_raw ++ [ (u "clean_text", [VStr (u "merhaba "); VStr (u "a b")]) ]) ]}.

(** ** The remaining routes and helpers *)

(** [item.rsplit('.', 1)] cuts at the last [c]: what stands before it and
    what stands after it, when there is one. *)
Fixpoint rsplit_last (c : N) (s : str) : option (str * str) :=
  match s with
  | [] => None
  | x :: s' =>
      match rsplit_last c s' with
      | Some (a, b) => Some (x :: a, b)
      | None => if x =? c then Some ([], s') else None
      end
  end.

Definition rsplit1 (c : N) (s : str) : list str :=
  match rsplit_last c s with
  | Some (a, b) => [a; b]
  | None => [s]
  end.

(** [[item.rsplit('.', 1)[0] for item in items]] *)
Definition remove_file_extensions (items : list str) : list str :=
  map (fun item => hd [] (rsplit1 46 item)) items.

Definition ALLOWED_EXTENSIONS : list str := [u "csv"; u "xlsx"].

(** [file[-5:]] *)
Definition last5 (file : str) : str := drop (length file - 5) file.

Section FileNames.
Context {db : unicode_db} {si : set_impl}.

(** [allowed_file]: the second operand is evaluated only when the name has
    a dot, and then [rsplit] gives two parts. *)
Definition allowed_file (filename : str) : bool :=
  has_char 46 filename &&
  match rsplit1 46 filename with
  | [_; ext] => bool_decide (lower ext ∈ ALLOWED_EXTENSIONS)
  | _ => false
  end.

(** The two lists [export_data] hands to its page, computed from the names
    of the files of the cleaned-data folder. *)
Definition export_data_lists (names : list str) : list str * list str :=
  let files :=
    List.filter (fun file => negb (contains (u ".gitkeep") file) &&
                             negb (bool_decide (last5 file = u ".json"))) names in
  let json_files :=
    List.filter (fun file => bool_decide (last5 file = u ".json")) names in
  (set_order (remove_file_extensions files), remove_file_extensions json_files).

End FileNames.

Section Routes.
Context {si : set_impl} {pl : pandas_lib}.
Variable CLEANED_DATA_FOLDER : str.

(** [send_file(path)]: the file that goes out. *)
Definition send_file (fs : store) (path : str) : outcome file :=
  match fs !! path with
  | Some f => Ret f
  | None => Raise (FileNotFoundError "No such file or directory")
  end.

Definition download_failed : string :=
  "Something went wrong when downloading exported (labelled) dataset.".

(** [export_csv_from_json]: an error response or the file sent, and the
    store it leaves. *)
Definition export_csv_from_json (fs : store) (filename : str)
  : outcome (response + file) * store :=
  match json_to_csv CLEANED_DATA_FOLDER fs (filename ++ u ".json") with
  | (Raise e, fs') => (Raise e, fs')
  | (Ret (Some err), fs') => (Ret (inl (iserr download_failed err)), fs')
  | (Ret None, fs') =>
      (inr <$> send_file fs' (CLEANED_DATA_FOLDER ++ u "/" ++ filename ++ u ".csv"),
       fs')
  end.

(** What the [GET] branch of [label_data_editor] builds before it renders:
    the list of [{'id': data[0], 'text': data[1]}], an exception of the
    extraction, or the [IndexError] of a row with fewer than two cells. *)
Inductive editor_result :=
  | Dataset (dataset : list value)
  | ExtractionRaised (e : exn)
  | IndexError.

Fixpoint editor_entries (rows : list (list value)) : option (list value) :=
  match rows with
  | [] => Some []
  | (d0 :: d1 :: _) :: rest =>
      cons (VDict [ (u "id", d0); (u "text", d1) ]) <$> editor_entries rest
  | _ :: _ => None
  end.

Definition label_data_editor (fs : store) (filename : str) : editor_result :=
  match extract_text_and_ids_from_dataset fs filename with
  | Raise e => ExtractionRaised e
  | Ret rows =>
      match editor_entries rows with
      | Some dataset => Dataset dataset
      | None => IndexError
      end
  end.

End Routes.

(** The store after a list of writes, the first of the list done last. *)
Definition apply_writes (writes : list (str * file)) (fs : store) : store :=
  foldr (fun kv m => <[kv.1 := kv.2]> m) fs writes.

(** ** More sample data *)

(** A file system that opens every path, and one where the cleaned-data
    folder cannot be opened as a file. *)
Definition open_all : file_system := {| open_w := fun _ => None |}.




(** A collection that refuses every document, and one that takes a first
    document and refuses the next. *)
Definition refusing_sink : sink :=
  {| insert_one := fun _ _ => Some (ValueError "refused") |}.
Definition single_sink : sink :=
  {| insert_one := fun docs _ =>
       match docs with
       | [] => None
       | _ :: _ => Some (ValueError "duplicate key")
       end |}.

(** Submission files with one event and one annotation: the annotation has
    no [text]; its [text] is a number. *)
Definition textless_store : store :=
  {[ sample_folder ++ u "/" ++ u "d.json" :=
       Json (VList [
         VDict [ (u "page", VInt 1); (u "text", VStr (u "x"));
                 (u "annotations",
                  VList [ VDict [ (u "tag", VStr (u "FIRMA")) ] ]) ] ]) ]}.
Definition number_text_store : store :=
  {[ sample_folder ++ u "/" ++ u "d.json" :=
       Json (VList [
         VDict [ (u "page", VInt 1); (u "text", VStr (u "x"));
                 (u "annotations",
                  VList [ VDict [ (u "tag", VStr (u "FIRMA"));
                                  (u "text", VInt 5) ] ]) ] ]) ]}.

(** The worked example in a file whose name has no [json] in it. *)
Definition plain_name_store : store :=
  {[ sample_folder ++ u "/" ++ u "d.txt" :=
       Json (VList (map event_json [scenario_event])) ]}.

(** An upload without a [text] column. *)
Definition no_text_upload : store :=
  {[ UPLOADS ++ u "a.csv" := Csv [ (u "id", [VInt 1]) ] ]}.

(** * Properties *)

(** ** Character classes *)

Ltac b2p :=
  unfold letter_or_space, not_plain, ascii_alnum, ascii_upper, ascii_lower,
    ascii_digit, ascii_space, is_ascii, in_range, dot in *;
  repeat first
    [ rewrite andb_true_iff in * | rewrite orb_true_iff in *
    | rewrite andb_false_iff in * | rewrite orb_false_iff in *
    | rewrite negb_true_iff in * | rewrite negb_false_iff in *
    | rewrite N.leb_le in * | rewrite N.leb_gt in *
    | rewrite N.ltb_lt in * | rewrite N.ltb_ge in *
    | rewrite N.eqb_eq in * | rewrite N.eqb_neq in * ].

Ltac cls := b2p; lia.

Section TextFacts.
Context {db : unicode_db}.

Lemma letter_is_word c : ascii_lower c = true -> is_word c = true.
Proof.
  intros H. unfold is_word.
  assert (Ha : is_ascii c = true) by cls.
  rewrite Ha. unfold ascii_alnum. rewrite H. rewrite orb_true_r. reflexivity.
Qed.

Lemma letter_not_space c : ascii_lower c = true -> is_space c = false.
Proof.
  intros H. unfold is_space.
  assert (Ha : is_ascii c = true) by cls.
  rewrite Ha. cls.
Qed.

Lemma letter_not_digit c : letter_or_space c = true -> is_digit c = false.
Proof.
  intros H. unfold is_digit.
  assert (Ha : is_ascii c = true) by cls.
  rewrite Ha. cls.
Qed.

Lemma space_is_space : is_space 32 = true.
Proof. reflexivity. Qed.

Lemma space_not_word : is_word 32 = false.
Proof. reflexivity. Qed.

Lemma los_cases c :
  letter_or_space c = true -> c = 32 \/ (ascii_lower c = true /\ c <> 32).
Proof. intros H. destruct (N.eqb_spec c 32); [left | right]; cls. Qed.

(** ** The alphabet of a normalised text *)

Lemma lower_cp_no_upper (Hdb : db_sound db) pre c suf :
  Forall (fun d => ascii_upper d = false) (lower_cp pre c suf).
Proof.
  unfold lower_cp.
  destruct (ascii_upper c) eqn:Hu.
  - repeat constructor. cls.
  - destruct (is_ascii c) eqn:Ha.
    + repeat constructor. exact Hu.
    + apply List.Forall_forall. intros d Hd. exact (Hdb _ _ _ _ Ha Hd).
Qed.

Lemma lower_no_upper (Hdb : db_sound db) s :
  Forall (fun d => ascii_upper d = false) (lower s).
Proof.
  unfold lower. generalize (@nil N) as pre.
  induction s as [|c s IH]; intros pre; simpl.
  - constructor.
  - apply Forall_app. split; [apply lower_cp_no_upper, Hdb | apply IH].
Qed.

Lemma split_go_Forall (P : N -> Prop) s : forall tok,
  Forall P tok -> Forall P s -> Forall (Forall P) (split_go tok s).
Proof.
  induction s as [|c s IH]; intros tok Ht Hs; simpl.
  - destruct tok; constructor; [|constructor].
    apply Forall_rev. exact Ht.
  - inversion Hs; subst.
    destruct (is_space c).
    + destruct tok.
      * apply IH; [constructor | assumption].
      * constructor; [apply Forall_rev; exact Ht | apply IH; [constructor | assumption]].
    + apply IH; [constructor; assumption | assumption].
Qed.

Lemma join_Forall (P : N -> Prop) sep items :
  Forall P sep -> Forall (Forall P) items -> Forall P (join sep items).
Proof.
  intros Hsep. induction 1 as [|w ws Hw Hws IH]; simpl.
  - constructor.
  - destruct ws; [exact Hw |].
    apply Forall_app. split; [exact Hw |].
    apply Forall_app. split; [exact Hsep | exact IH].
Qed.

Lemma filter_Forall {A} (P : A -> Prop) f (l : list A) :
  Forall P l -> Forall P (List.filter f l).
Proof.
  induction 1; simpl; [constructor |].
  destruct (f x); [constructor |]; assumption.
Qed.

(** What [re.sub] emits is the replacement or a code point at which the
    pattern found nothing to consume. *)
Lemma sub_from_Forall (P Q : N -> Prop) r repl :
  Forall P repl ->
  (forall bol c t, Q c ->
     match match_regex r bol (c :: t) with Some (S _) => False | _ => True end ->
     P c) ->
  forall s bol skip, Forall Q s -> Forall P (sub_from r repl bol skip s).
Proof.
  intros Hrepl Hmiss.
  induction s as [|c s IH]; intros bol skip Hs; simpl.
  - destruct skip; [destruct (match_regex r bol []) |]; (assumption || constructor).
  - inversion Hs; subst.
    destruct skip as [|n]; [| apply IH; assumption].
    pose proof (Hmiss bol c s H1) as Hc.
    destruct (match_regex r bol (c :: s)) as [[|n]|].
    + apply Forall_app. split; [assumption |].
      constructor; [apply Hc; exact I | apply IH; assumption].
    + apply Forall_app. split; [assumption | apply IH; assumption].
    + constructor; [apply Hc; exact I | apply IH; assumption].
Qed.

(** The patterns with their literals spelled out. *)
Lemma re_noise_unfold :
  re_noise =
  [ [Cls (N.eqb 64) One; Cls (N.eqb 91) One; Cls (N.eqb 65) One;
     Cls (N.eqb 45) One; Cls (N.eqb 90) One; Cls (N.eqb 97) One;
     Cls (N.eqb 45) One; Cls (N.eqb 122) One; Cls (N.eqb 48) One;
     Cls (N.eqb 45) One; Cls (N.eqb 57) One; Cls (N.eqb 93) PlusG];
    [Cls not_plain One];
    [Cls is_word PlusG; Cls (N.eqb 58) One; Cls (N.eqb 47) One;
     Cls (N.eqb 47) One; Cls (fun c => negb (is_space c)) PlusG];
    [Bol; Cls (N.eqb 114) One; Cls (N.eqb 116) One];
    [Cls (N.eqb 104) One; Cls (N.eqb 116) One; Cls (N.eqb 116) One;
     Cls (N.eqb 112) One; Cls dot PlusL] ].
Proof. reflexivity. Qed.

Lemma match_branch_one p b bol c t :
  match_branch (Cls p One :: b) bol (c :: t) =
  if p c then S <$> match_branch b false t else None.
Proof. reflexivity. Qed.

Lemma match_branch_plus p b bol s :
  match_branch (Cls p PlusG :: b) bol s = rep_greedy p (match_branch b false) s.
Proof. reflexivity. Qed.

Lemma match_branch_bol b bol s :
  match_branch (Bol :: b) bol s = if bol then match_branch b bol s else None.
Proof. reflexivity. Qed.

Lemma branch_one_pos p b bol s n :
  match_branch (Cls p One :: b) bol s = Some n -> exists m, n = S m.
Proof.
  destruct s as [|c t]; [discriminate |].
  rewrite match_branch_one. destruct (p c); [| discriminate].
  destruct (match_branch b false t); inversion 1; eauto.
Qed.

Lemma rep_greedy_pos p k s n : rep_greedy p k s = Some n -> exists m, n = S m.
Proof.
  destruct s as [|c t]; simpl; [discriminate |].
  destruct (p c); [| discriminate].
  destruct (rep_greedy p k t); [inversion 1; eauto |].
  destruct (k t); inversion 1; eauto.
Qed.

Lemma match_regex_hit b r bol s n :
  match_branch b bol s = Some n -> match_regex (b :: r) bol s = Some n.
Proof. intros H. simpl. rewrite H. reflexivity. Qed.

Lemma match_regex_skip b r bol s :
  match_branch b bol s = None -> match_regex (b :: r) bol s = match_regex r bol s.
Proof. intros H. simpl. rewrite H. reflexivity. Qed.

Lemma noise_hit bol c t :
  not_plain c = true ->
  exists n, match_regex re_noise bol (c :: t) = Some (S n).
Proof.
  intros Hc. rewrite re_noise_unfold.
  match goal with |- context [match_regex (?b :: _) _ _] =>
    destruct (match_branch b bol (c :: t)) as [n|] eqn:E end.
  - destruct (branch_one_pos _ _ _ _ _ E) as [m ->].
    exists m. apply match_regex_hit, E.
  - rewrite (match_regex_skip _ _ _ _ E).
    exists O. apply match_regex_hit. rewrite match_branch_one, Hc. reflexivity.
Qed.

Lemma gap_hit bol c t :
  is_word c = false ->
  exists n, match_regex re_gap bol (c :: t) = Some (S n).
Proof.
  intros Hc. unfold re_gap.
  match goal with |- context [match_regex [?b] _ _] =>
    destruct (match_branch b bol (c :: t)) as [n|] eqn:E end.
  - destruct (rep_greedy_pos _ _ _ _ E) as [m ->].
    exists m. apply match_regex_hit, E.
  - exfalso. revert E. cbn [match_branch rep_greedy]. rewrite Hc. cbn [negb].
    destruct (rep_greedy _ _ t); [discriminate |].
    destruct (rep_greedy is_space _ t); discriminate.
Qed.

Lemma digits_hit bol c t :
  is_digit c = true ->
  exists n, match_regex re_digits bol (c :: t) = Some (S n).
Proof.
  intros Hc. unfold re_digits.
  match goal with |- context [match_regex [?b] _ _] =>
    destruct (match_branch b bol (c :: t)) as [n|] eqn:E end.
  - destruct (rep_greedy_pos _ _ _ _ E) as [m ->].
    exists m. apply match_regex_hit, E.
  - exfalso. revert E. cbn [match_branch rep_greedy]. rewrite Hc.
    destruct (rep_greedy _ _ t); discriminate.
Qed.

Lemma clean_text_alphabet (Hdb : db_sound db) s :
  Forall (fun c => letter_or_space c = true) (clean_text s).
Proof.
  unfold clean_text, re_sub.
  set (Q0 := fun c : N => ascii_upper c = false).
  set (Q1 := fun c : N => ascii_upper c = false /\ not_plain c = false).
  set (Q2 := fun c : N => ascii_lower c || ascii_digit c || (c =? 32) = true).
  apply (sub_from_Forall _ Q2); [constructor | |].
  { intros bol c t Hc Hm. subst Q2. cbv beta in Hc.
    destruct (is_digit c) eqn:Hd.
    - destruct (digits_hit bol c t Hd) as [n Hn]. rewrite Hn in Hm. destruct Hm.
    - revert Hd. unfold is_digit.
      assert (Ha : is_ascii c = true) by cls.
      rewrite Ha. intros Hd. cls. }
  apply (sub_from_Forall _ Q1); [repeat constructor | |].
  { intros bol c t [Hu Hp] Hm. subst Q2. cbv beta.
    destruct (is_word c) eqn:Hw.
    - revert Hw. unfold is_word.
      assert (Ha : is_ascii c = true) by cls.
      rewrite Ha. intros Hw. cls.
    - destruct (gap_hit bol c t Hw) as [n Hn]. rewrite Hn in Hm. destruct Hm. }
  apply (sub_from_Forall _ Q0); [constructor | |].
  { intros bol c t Hu Hm. split; [exact Hu |].
    destruct (not_plain c) eqn:Hp; [| reflexivity].
    destruct (noise_hit bol c t Hp) as [n Hn]. rewrite Hn in Hm. destruct Hm. }
  apply join_Forall; [repeat constructor |].
  apply filter_Forall, split_go_Forall; [constructor |].
  apply lower_no_upper, Hdb.
Qed.

(** ** Texts that cleaning leaves alone *)

Lemma turkish_plain s :
  Forall (fun c => letter_or_space c = true) s -> turkish_characters s = s.
Proof.
  unfold turkish_characters. induction 1 as [|c s Hc Hs IH]; [reflexivity |].
  cbn [map]. rewrite IH. f_equal.
  assert (Hlt : c < 128) by cls.
  unfold turkish_table. cbn [translate_cp].
  repeat match goal with
  | |- context [c =? ?k] => destruct (N.eqb_spec c k); [lia |]
  end.
  reflexivity.
Qed.

Lemma lower_plain s :
  Forall (fun c => letter_or_space c = true) s -> lower s = s.
Proof.
  unfold lower. generalize (@nil N) as pre.
  induction s as [|c s IH]; intros pre Hs; simpl; [reflexivity |].
  inversion Hs; subst. rewrite IH by assumption.
  unfold lower_cp.
  assert (Hu : ascii_upper c = false) by cls.
  assert (Ha : is_ascii c = true) by cls.
  rewrite Hu, Ha. reflexivity.
Qed.

Lemma join_cons sep w v ws :
  join sep (w :: v :: ws) = w ++ sep ++ join sep (v :: ws).
Proof. reflexivity. Qed.

Lemma spaced_in_weaken s : spaced_in true s = true -> spaced_in false s = true.
Proof.
  destruct s as [|c s]; simpl; [discriminate |].
  destruct (c =? 32); [discriminate | trivial].
Qed.

Lemma spaced_weaken s : spaced s = true -> spaced_in false s = true.
Proof. destruct s; [reflexivity | apply spaced_in_weaken]. Qed.

Lemma split_join_spaced s :
  Forall (fun c => letter_or_space c = true) s ->
  (forall tok, tok <> [] -> spaced_in false s = true ->
     join (u " ") (split_go tok s) = rev tok ++ s) /\
  (spaced_in true s = true -> s <> [] /\ join (u " ") (split_go [] s) = s).
Proof.
  induction 1 as [|c s Hc Hs [IH1 IH2]].
  - split; [| discriminate].
    intros tok Ht _. simpl. destruct tok; [congruence |].
    rewrite app_nil_r. reflexivity.
  - destruct (los_cases c Hc) as [-> | [Hl Hne]].
    + split; [| discriminate].
      intros tok Ht Hsp. simpl in Hsp.
      destruct (IH2 Hsp) as [Hne Hj].
      cbn [split_go]. rewrite space_is_space.
      destruct tok as [|a tok]; [congruence |].
      destruct (split_go [] s) as [|v ws] eqn:E; [simpl in Hj; congruence |].
      rewrite join_cons. do 2 f_equal. exact Hj.
    + assert (Hn : (c =? 32) = false) by (apply N.eqb_neq; exact Hne).
      assert (Hns : is_space c = false) by (apply letter_not_space; exact Hl).
      split.
      * intros tok Ht Hsp. simpl in Hsp. rewrite Hn in Hsp.
        cbn [split_go]. rewrite Hns.
        rewrite (IH1 (c :: tok)) by (congruence || assumption).
        simpl. rewrite <- app_assoc. reflexivity.
      * intros Hsp. simpl in Hsp. rewrite Hn in Hsp.
        split; [congruence |].
        cbn [split_go]. rewrite Hns.
        rewrite (IH1 [c]) by (congruence || assumption). reflexivity.
Qed.

Lemma split_join_id s :
  Forall (fun c => letter_or_space c = true) s -> spaced s = true ->
  join (u " ") (split s) = s.
Proof.
  intros Hs Hsp. destruct s as [|c s]; [reflexivity |].
  apply (split_join_spaced _ Hs), Hsp.
Qed.

Lemma filter_all {A} (f : A -> bool) l :
  Forall (fun x => f x = true) l -> List.filter f l = l.
Proof.
  induction 1 as [|x l Hx Hl IH]; simpl; [reflexivity |].
  rewrite Hx, IH. reflexivity.
Qed.

Lemma keep_plain_word w :
  Forall (fun c => letter_or_space c = true) w -> keep_word w = true.
Proof.
  intros Hw. unfold keep_word, has_char.
  assert (H : forall k, letter_or_space k = false -> existsb (N.eqb k) w = false).
  { intros k Hk. induction Hw as [|c w Hc Hw IH]; simpl; [reflexivity |].
    rewrite IH. destruct (N.eqb_spec k c); [subst; congruence | reflexivity]. }
  rewrite !H by reflexivity. reflexivity.
Qed.

Lemma sub_from_quiet r repl s : forall bol,
  quiet r bol s -> sub_from r repl bol O s = s.
Proof.
  induction s as [|c s IH]; intros bol Hq; simpl in *.
  - rewrite Hq. reflexivity.
  - destruct Hq as [-> Hq]. rewrite IH by assumption. reflexivity.
Qed.

Lemma rep_greedy_none (P : N -> Prop) p k s :
  (forall t, Forall P t -> k t = None) -> Forall P s -> rep_greedy p k s = None.
Proof.
  intros Hk. induction 1 as [|c s Hc Hs IH]; simpl; [reflexivity |].
  rewrite IH, (Hk s Hs). destruct (p c); reflexivity.
Qed.

Lemma rt_branch bol s :
  starts_with (u "rt") s = false ->
  match_branch [Bol; Cls (N.eqb 114) One; Cls (N.eqb 116) One] bol s = None.
Proof.
  change (u "rt") with [114; 116]. intros H.
  cbn [match_branch]. destruct bol; [| reflexivity].
  destruct s as [|c [|d s]]; cbn [starts_with] in H; cbn [match_branch].
  - reflexivity.
  - destruct (114 =? c); reflexivity.
  - destruct (114 =? c); [| reflexivity].
    destruct (116 =? d); [discriminate | reflexivity].
Qed.

Lemma http_branch bol s :
  http_at s = false ->
  match_branch [Cls (N.eqb 104) One; Cls (N.eqb 116) One; Cls (N.eqb 116) One;
                Cls (N.eqb 112) One; Cls dot PlusL] bol s = None.
Proof.
  unfold http_at. change (u "http") with [104; 116; 116; 112]. intros H.
  destruct s as [|c1 [|c2 [|c3 [|c4 [|c5 s]]]]];
    cbn [starts_with drop] in H; cbn [match_branch rep_lazy];
    repeat match goal with
    | |- context [?k =? ?c] => destruct (k =? c); cbn [andb] in H
    end; try reflexivity; try discriminate.
  rewrite H. reflexivity.
Qed.

Lemma noise_miss bol c t :
  Forall (fun c => letter_or_space c = true) (c :: t) ->
  (bol = true -> starts_with (u "rt") (c :: t) = false) ->
  http_at (c :: t) = false ->
  match_regex re_noise bol (c :: t) = None.
Proof.
  intros Hs Hrt Hh. inversion Hs as [|? ? Hc Ht]; subst.
  rewrite re_noise_unfold.
  rewrite match_regex_skip.
  2:{ rewrite match_branch_one.
      destruct (N.eqb_spec 64 c); [subst; discriminate | reflexivity]. }
  rewrite match_regex_skip.
  2:{ rewrite match_branch_one.
      assert (Hp : not_plain c = false) by cls.
      rewrite Hp. reflexivity. }
  rewrite match_regex_skip.
  2:{ rewrite match_branch_plus.
      apply (rep_greedy_none (fun c => letter_or_space c = true)); [| assumption].
      intros t' Ht'. destruct Ht' as [|d t' Hd Ht']; [reflexivity |].
      rewrite match_branch_one.
      destruct (N.eqb_spec 58 d); [subst; discriminate | reflexivity]. }
  rewrite match_regex_skip.
  2:{ destruct bol; [apply rt_branch, Hrt; reflexivity | reflexivity]. }
  rewrite match_regex_skip by (apply http_branch, Hh).
  reflexivity.
Qed.

Lemma noise_quiet s : forall bol,
  Forall (fun c => letter_or_space c = true) s ->
  (bol = true -> starts_with (u "rt") s = false) ->
  has_http s = false ->
  quiet re_noise bol s.
Proof.
  induction s as [|c s IH]; intros bol Hs Hrt Hh.
  - unfold quiet. rewrite re_noise_unfold. destruct bol; reflexivity.
  - simpl in Hh. apply orb_false_iff in Hh as [Hh1 Hh2].
    split.
    + apply noise_miss; assumption.
    + inversion Hs; subst. apply IH; [assumption | discriminate | assumption].
Qed.

Lemma digits_quiet s : forall bol,
  Forall (fun c => letter_or_space c = true) s -> quiet re_digits bol s.
Proof.
  induction s as [|c s IH]; intros bol Hs; [reflexivity |].
  inversion Hs; subst. split; [| apply IH; assumption].
  unfold re_digits. cbn [match_regex match_branch rep_greedy].
  rewrite letter_not_digit by assumption. reflexivity.
Qed.

Lemma sub_from_hit r repl bol c s n :
  match_regex r bol (c :: s) = Some (S n) ->
  sub_from r repl bol O (c :: s) = repl ++ sub_from r repl false n s.
Proof. intros H. simpl. rewrite H. reflexivity. Qed.

Lemma sub_from_miss r repl bol c s :
  match_regex r bol (c :: s) = None ->
  sub_from r repl bol O (c :: s) = c :: sub_from r repl false O s.
Proof. intros H. simpl. rewrite H. reflexivity. Qed.

Lemma gap_plain s : forall bol,
  Forall (fun c => letter_or_space c = true) s ->
  spaced_in false s = true ->
  sub_from re_gap (u " ") bol O s = s.
Proof.
  induction s as [|c s IH]; intros bol Hs Hsp; [reflexivity |].
  inversion Hs as [|? ? Hc Ht]; subst.
  destruct (los_cases c Hc) as [-> | [Hl Hne]].
  - simpl in Hsp.
    destruct s as [|d s]; [discriminate |].
    assert (Hd : (d =? 32) = false) by (simpl in Hsp; destruct (d =? 32); congruence).
    inversion Ht as [|? ? Hd' Ht']; subst.
    destruct (los_cases d Hd') as [-> | [Hdl _]]; [discriminate |].
    assert (Hm : match_regex re_gap bol (32 :: d :: s) = Some 1%nat).
    { unfold re_gap. cbn [match_regex match_branch rep_greedy].
      rewrite space_not_word, (letter_is_word d Hdl), (letter_not_space d Hdl).
      reflexivity. }
    rewrite (sub_from_hit _ _ _ _ _ _ Hm).
    rewrite (IH false Ht (spaced_in_weaken _ Hsp)). reflexivity.
  - assert (Hn : (c =? 32) = false) by (apply N.eqb_neq; exact Hne).
    simpl in Hsp. rewrite Hn in Hsp.
    assert (Hm : match_regex re_gap bol (c :: s) = None).
    { unfold re_gap. cbn [match_regex match_branch rep_greedy].
      rewrite (letter_is_word c Hl). reflexivity. }
    rewrite (sub_from_miss _ _ _ _ _ Hm), (IH false Ht Hsp). reflexivity.
Qed.

Lemma tidy_fixed s :
  Forall (fun c => letter_or_space c = true) s -> tidy s = true ->
  normalize s = s.
Proof.
  intros Hs Ht. unfold tidy in Ht.
  apply andb_true_iff in Ht as [Ht Hh]. apply andb_true_iff in Ht as [Hsp Hrt].
  apply negb_true_iff in Hh, Hrt.
  unfold normalize. rewrite (turkish_plain s Hs).
  unfold clean_text. rewrite (lower_plain s Hs).
  rewrite filter_all.
  2:{ eapply Forall_impl; [apply split_go_Forall; [constructor | exact Hs] |].
      intros w Hw. apply keep_plain_word, Hw. }
  rewrite (split_join_id s Hs Hsp).
  unfold re_sub.
  rewrite (sub_from_quiet re_noise) by (apply noise_quiet; auto).
  rewrite gap_plain by (auto using spaced_weaken).
  apply sub_from_quiet, digits_quiet, Hs.
Qed.

(** ** Texts that cleaning changes *)

Lemma match_regex_pos r :
  Forall (fun b => forall bol s n, match_branch b bol s = Some n -> exists m, n = S m) r ->
  forall bol s n, match_regex r bol s = Some n -> exists m, n = S m.
Proof.
  induction 1 as [|b r Hb Hr IH]; intros bol s n; cbn [match_regex]; [discriminate |].
  destruct (match_branch b bol s) as [k|] eqn:E; [| apply IH].
  inversion 1; subst. eapply Hb, E.
Qed.

Lemma match_regex_some r bol s :
  Exists (fun b => is_Some (match_branch b bol s)) r -> is_Some (match_regex r bol s).
Proof.
  induction 1 as [b r [n Hb] | b r Hr IH]; cbn [match_regex].
  - rewrite Hb. eauto.
  - destruct (match_branch b bol s); eauto.
Qed.

Lemma noise_pos bol s n :
  match_regex re_noise bol s = Some n -> exists m, n = S m.
Proof.
  rewrite re_noise_unfold. apply match_regex_pos.
  repeat constructor; intros b' s' n'.
  - apply branch_one_pos.
  - apply branch_one_pos.
  - rewrite match_branch_plus. apply rep_greedy_pos.
  - rewrite match_branch_bol. destruct b'; [| discriminate].
    apply branch_one_pos.
  - apply branch_one_pos.
Qed.

Lemma gap_pos bol s n :
  match_regex re_gap bol s = Some n -> exists m, n = S m.
Proof.
  unfold re_gap. apply match_regex_pos.
  repeat constructor; intros b' s' n'.
  rewrite match_branch_plus. apply rep_greedy_pos.
Qed.

Lemma digits_pos bol s n :
  match_regex re_digits bol s = Some n -> exists m, n = S m.
Proof.
  unfold re_digits. apply match_regex_pos.
  repeat constructor; intros b' s' n'.
  rewrite match_branch_plus. apply rep_greedy_pos.
Qed.

(** A substitution whose replacement is no longer than one code point
    never lengthens the text, when the pattern consumes at least one. *)
Lemma sub_from_length r repl :
  (length repl <= 1)%nat ->
  (forall bol s n, match_regex r bol s = Some n -> exists m, n = S m) ->
  (forall bol, match_regex r bol [] = None) ->
  forall s bol skip, (length (sub_from r repl bol skip s) <= length s)%nat.
Proof.
  intros Hrepl Hpos Hnil. induction s as [|c s IH]; intros bol skip.
  - cbn [sub_from]. rewrite Hnil. destruct skip; cbn; lia.
  - cbn [sub_from]. destruct skip as [|k].
    + destruct (match_regex r bol (c :: s)) as [n|] eqn:E.
      * destruct (Hpos _ _ _ E) as [m ->].
        rewrite length_app. specialize (IH false m). cbn [length]. lia.
      * specialize (IH false O). cbn [length]. lia.
    + specialize (IH false k). cbn [length]. lia.
Qed.

Lemma noise_nil bol : match_regex re_noise bol [] = None.
Proof. rewrite re_noise_unfold. destruct bol; reflexivity. Qed.

Lemma rt_branch_hit s :
  starts_with (u "rt") s = true ->
  is_Some (match_branch [Bol; Cls (N.eqb 114) One; Cls (N.eqb 116) One] true s).
Proof.
  change (u "rt") with [114; 116].
  destruct s as [|c [|d s]]; cbn [starts_with andb]; try discriminate.
  - destruct (114 =? c); discriminate.
  - cbn [match_branch]. destruct (114 =? c); [| discriminate].
    destruct (116 =? d); [| discriminate]. intros _. cbn. eauto.
Qed.

Lemma http_branch_hit bol s :
  http_at s = true ->
  is_Some (match_branch
             [Cls (N.eqb 104) One; Cls (N.eqb 116) One; Cls (N.eqb 116) One;
              Cls (N.eqb 112) One; Cls dot PlusL] bol s).
Proof.
  unfold http_at. change (u "http") with [104; 116; 116; 112].
  destruct s as [|c1 [|c2 [|c3 [|c4 [|c5 s]]]]];
    cbn [starts_with drop andb]; intros H; cbn [match_branch rep_lazy];
    repeat match goal with
    | |- context [?k =? ?c] => destruct (k =? c); cbn [andb] in H
    end; try discriminate H.
  rewrite H. cbn. eauto.
Qed.

Lemma noise_found bol s :
  (bol = true /\ starts_with (u "rt") s = true) \/ http_at s = true ->
  exists m, match_regex re_noise bol s = Some (S m).
Proof.
  intros H.
  assert (Hs : is_Some (match_regex re_noise bol s)).
  { rewrite re_noise_unfold. apply match_regex_some.
    destruct H as [[-> Hrt] | Hh].
    - do 3 apply Exists_cons_tl. apply Exists_cons_hd, rt_branch_hit, Hrt.
    - do 4 apply Exists_cons_tl. apply Exists_cons_hd, http_branch_hit, Hh. }
  destruct Hs as [n Hn]. destruct (noise_pos _ _ _ Hn) as [m ->]. eauto.
Qed.

Lemma noise_shrinks s : forall bol,
  (bol = true /\ starts_with (u "rt") s = true) \/ has_http s = true ->
  (length (sub_from re_noise [] bol O s) < length s)%nat.
Proof.
  induction s as [|c s IH]; intros bol H.
  - destruct H as [[_ H] | H]; discriminate H.
  - destruct (match_regex re_noise bol (c :: s)) as [n|] eqn:E.
    + destruct (noise_pos _ _ _ E) as [m ->].
      rewrite (sub_from_hit _ _ _ _ _ _ E). cbn [app length].
      pose proof (sub_from_length re_noise [] ltac:(cbn; lia) noise_pos noise_nil
                    s false m). lia.
    + rewrite (sub_from_miss _ _ _ _ _ E). cbn [length].
      apply -> Nat.succ_lt_mono. apply IH. right.
      destruct H as [H | H].
      * destruct (noise_found bol (c :: s) (or_introl H)) as [m Hm]. congruence.
      * cbn [has_http] in H. apply orb_true_iff in H as [H | H]; [| exact H].
        destruct (noise_found bol (c :: s) (or_intror H)) as [m Hm]. congruence.
Qed.

Lemma join_length_cons sep (w : str) ws :
  ws <> [] ->
  length (join sep (w :: ws)) = (length w + length sep + length (join sep ws))%nat.
Proof.
  destruct ws as [|v ws]; [congruence |]. intros _.
  rewrite join_cons, !length_app. lia.
Qed.

(** Re-joining the words of a text never lengthens it, and keeps its length
    only if every space of the text stands between two words. *)
Lemma split_join_length s :
  Forall (fun c => letter_or_space c = true) s ->
  (forall tok, tok <> [] ->
     (length (join (u " ") (split_go tok s)) <= length tok + length s)%nat /\
     (length (join (u " ") (split_go tok s)) = (length tok + length s)%nat ->
      spaced_in false s = true)) /\
  ((length (join (u " ") (split_go [] s)) <= length s)%nat /\
   (length (join (u " ") (split_go [] s)) = length s ->
    s = [] \/ spaced_in true s = true)).
Proof.
  induction 1 as [|c s Hc Hs [IH1 [IH2 IH3]]].
  - split.
    + intros tok Ht. cbn [split_go]. destruct tok as [|a tok]; [congruence |].
      cbn [join]. rewrite length_rev. cbn [length]. split; [lia | reflexivity].
    + cbn. split; [lia | auto].
  - destruct (los_cases c Hc) as [-> | [Hl Hne]].
    + split.
      * intros tok Ht. cbn [split_go]. rewrite space_is_space.
        destruct tok as [|a tok]; [congruence |].
        destruct (split_go [] s) as [|v ws] eqn:E.
        -- cbn [join]. rewrite length_rev. cbn [length]. split; [lia | lia].
        -- rewrite join_length_cons by discriminate.
           rewrite length_rev. cbn [length u map list_ascii_of_string] in *.
           split; [lia |]. intros Heq.
           cbn [spaced_in N.eqb Pos.eqb negb andb].
           destruct IH3 as [-> | IH3]; [lia | discriminate E | exact IH3].
      * cbn [split_go]. rewrite space_is_space. cbn [length].
        split; [lia | lia].
    + assert (Hn : (c =? 32) = false) by (apply N.eqb_neq; exact Hne).
      assert (Hns : is_space c = false) by (apply letter_not_space; exact Hl).
      split.
      * intros tok Ht. cbn [split_go spaced_in]. rewrite Hns, Hn.
        destruct (IH1 (c :: tok) ltac:(discriminate)) as [Hle Heq].
        cbn [length] in *. split; [lia |]. intros H. apply Heq. lia.
      * cbn [split_go spaced_in]. rewrite Hns, Hn.
        destruct (IH1 [c] ltac:(discriminate)) as [Hle Heq].
        cbn [length] in *. split; [lia |]. intros H. right. apply Heq. lia.
Qed.

Lemma untidy_changes s :
  Forall (fun c => letter_or_space c = true) s ->
  normalize s = s -> tidy s = true.
Proof.
  intros Hs Hfix.
  unfold normalize in Hfix. rewrite (turkish_plain s Hs) in Hfix.
  unfold clean_text in Hfix. rewrite (lower_plain s Hs) in Hfix.
  rewrite filter_all in Hfix.
  2:{ eapply Forall_impl; [apply split_go_Forall; [constructor | exact Hs] |].
      intros w Hw. apply keep_plain_word, Hw. }
  unfold re_sub in Hfix.
  pose proof (split_join_length s Hs) as [_ [HJ HJeq]].
  change (split_go [] s) with (split s) in HJ, HJeq.
  remember (join (u " ") (split s)) as J eqn:EJ.
  remember (sub_from re_noise [] true O J) as N1 eqn:EN.
  remember (sub_from re_gap (u " ") true O N1) as G eqn:EG.
  assert (HN : (length N1 <= length J)%nat).
  { subst N1. apply sub_from_length; [cbn; lia | apply noise_pos | apply noise_nil]. }
  assert (HG : (length G <= length N1)%nat).
  { subst G. apply sub_from_length; [cbn; lia | apply gap_pos | reflexivity]. }
  assert (HD : (length (sub_from re_digits [] true O G) <= length G)%nat).
  { apply sub_from_length; [cbn; lia | apply digits_pos | reflexivity]. }
  rewrite Hfix in HD.
  assert (Hsp : spaced s = true).
  { destruct (HJeq ltac:(lia)) as [-> | H]; [reflexivity |].
    destruct s; [reflexivity | exact H]. }
  assert (HJs : J = s) by (subst J; apply split_join_id; assumption).
  rewrite HJs in *. clear EJ HJs.
  unfold tidy. rewrite Hsp. cbn [andb].
  destruct (starts_with (u "rt") s) eqn:Hrt.
  { pose proof (noise_shrinks s true (or_introl (conj eq_refl Hrt))) as Hn.
    rewrite <- EN in Hn. lia. }
  destruct (has_http s) eqn:Hh; [| reflexivity].
  pose proof (noise_shrinks s true (or_intror Hh)) as Hn.
  rewrite <- EN in Hn. lia.
Qed.

(** C2, as amended: normalising twice gives what normalising once gives
    exactly when the normalised text is tidy, that is, made of words
    separated by single spaces with no space at either end, not beginning
    with [rt], and without [http] followed by a further character.  (The
    Unicode tables are only asked never to lower-case into an ASCII
    capital.) *)
Theorem normalize_idempotent_iff_tidy (Hdb : db_sound db) (x : str) :
  normalize (normalize x) = normalize x <-> tidy (normalize x) = true.
Proof.
  split.
  - apply untidy_changes, clean_text_alphabet, Hdb.
  - intros Ht. apply tidy_fixed; [| exact Ht].
    apply clean_text_alphabet, Hdb.
Qed.

End TextFacts.

Lemma ascii_db_sound : db_sound ascii_db.
Proof.
  intros pre c suf d Ha [<- | []].
  unfold is_ascii, ascii_upper, in_range in *.
  apply N.ltb_ge in Ha. apply andb_false_iff. right. apply N.leb_gt. lia.
Defined.

Lemma normalize_idempotent_iff_tidy_witness :
  db_sound ascii_db /\
  (@normalize ascii_db (@normalize ascii_db (u "Cok GUZEL bir urun!")) =
   @normalize ascii_db (u "Cok GUZEL bir urun!") <->
   tidy (@normalize ascii_db (u "Cok GUZEL bir urun!")) = true).
Proof.
  split; [exact ascii_db_sound |].
  apply (@normalize_idempotent_iff_tidy ascii_db ascii_db_sound).
Defined.

(** C2, as stated, fails: whatever the Unicode tables, ["a 1 b"] normalises
    to ["a  b"] (the digit goes, its two spaces stay), and that normalises
    to ["a b"]. *)
Lemma normalize_not_idempotent :
  ~ exists db : unicode_db,
      @normalize db (@normalize db (u "a 1 b")) = @normalize db (u "a 1 b").
Proof. intros [db H]. vm_compute in H. discriminate H. Qed.

(** ** The aggregator on well-shaped submissions *)

Section AggregatorFacts.
Context {si : set_impl}.
Variable FOLDER : str.

Local Abbreviation temp4 c p n o :=
  [ (u "company", c); (u "positive", p); (u "negative", n); (u "notr", o) ].
Local Abbreviation df6 a b c p n o :=
  [ (u "id", a); (u "text", b); (u "company", c);
    (u "positive", p); (u "negative", n); (u "notr", o) ].

Lemma category_cases t cat :
  category_of t = Some cat ->
  cat = u "company" \/ cat = u "positive" \/ cat = u "negative" \/ cat = u "notr".
Proof.
  unfold category_of, translate_json. cbn [dict_get].
  repeat case_decide; inversion 1; auto.
Qed.

Lemma texts_for_cons cat a l :
  texts_for cat (a :: l) =
  if bool_decide (category_of (an_tag a) = Some cat)
  then an_text a :: texts_for cat l else texts_for cat l.
Proof.
  unfold texts_for. cbn [List.filter].
  destruct (bool_decide (category_of (an_tag a) = Some cat)); reflexivity.
Qed.

Lemma append_company x c p n o :
  append_to (u "company") x (temp4 c p n o) = temp4 (c ++ [x]) p n o.
Proof. reflexivity. Qed.
Lemma append_positive x c p n o :
  append_to (u "positive") x (temp4 c p n o) = temp4 c (p ++ [x]) n o.
Proof. reflexivity. Qed.
Lemma append_negative x c p n o :
  append_to (u "negative") x (temp4 c p n o) = temp4 c p (n ++ [x]) o.
Proof. reflexivity. Qed.
Lemma append_notr x c p n o :
  append_to (u "notr") x (temp4 c p n o) = temp4 c p n (o ++ [x]).
Proof. reflexivity. Qed.

Lemma file_annotation_known a cat temp :
  category_of (an_tag a) = Some cat ->
  file_annotation temp (annotation_json a) =
  Ret (append_to cat (VStr (an_text a)) temp).
Proof.
  intros H. unfold file_annotation.
  change (getitem (annotation_json a) "tag") with (Ret (VStr (an_tag a))).
  change (getitem (annotation_json a) "text") with (Ret (VStr (an_text a))).
  cbn [mbind outcome_bind lookup_tag].
  fold (category_of (an_tag a)). rewrite H. reflexivity.
Qed.

Lemma file_annotation_unknown a temp :
  category_of (an_tag a) = None ->
  file_annotation temp (annotation_json a) = Raise (KeyError (VStr (an_tag a))).
Proof.
  intros H. unfold file_annotation.
  change (getitem (annotation_json a) "tag") with (Ret (VStr (an_tag a))).
  cbn [mbind outcome_bind lookup_tag].
  fold (category_of (an_tag a)). rewrite H. reflexivity.
Qed.

Lemma file_annotations_spec l : forall c p n o,
  file_annotations (temp4 c p n o) (map annotation_json l) =
  match first_unknown_tag l with
  | Some t => inr (KeyError (VStr t))
  | None =>
      inl (temp4 (c ++ map VStr (texts_for (u "company") l))
                 (p ++ map VStr (texts_for (u "positive") l))
                 (n ++ map VStr (texts_for (u "negative") l))
                 (o ++ map VStr (texts_for (u "notr") l)))
  end.
Proof.
  induction l as [|a l IH]; intros c p n o.
  - cbn. rewrite !app_nil_r. reflexivity.
  - cbn [map file_annotations first_unknown_tag]. unfold known_tag.
    rewrite !texts_for_cons.
    destruct (category_of (an_tag a)) as [cat|] eqn:Hcat.
    2:{ rewrite (file_annotation_unknown _ _ Hcat). reflexivity. }
    rewrite (file_annotation_known _ _ _ Hcat).
    destruct (category_cases _ _ Hcat) as [-> | [-> | [-> | ->]]].
    + rewrite append_company, IH. destruct (first_unknown_tag l); [reflexivity |].
      cbn [map]. rewrite <- app_assoc. reflexivity.
    + rewrite append_positive, IH. destruct (first_unknown_tag l); [reflexivity |].
      cbn [map]. rewrite <- app_assoc. reflexivity.
    + rewrite append_negative, IH. destruct (first_unknown_tag l); [reflexivity |].
      cbn [map]. rewrite <- app_assoc. reflexivity.
    + rewrite append_notr, IH. destruct (first_unknown_tag l); [reflexivity |].
      cbn [map]. rewrite <- app_assoc. reflexivity.
Qed.

Lemma strs_of_strings ss : strs_of (map VStr ss) = Some ss.
Proof.
  induction ss as [|x ss IH]; [reflexivity |].
  cbn [map strs_of]. rewrite IH. reflexivity.
Qed.

Lemma category_field_strings ss :
  category_field (map VStr ss) =
  Ret (match ss with [] => VStr [] | _ => VStr (join (u "|") (set_order ss)) end).
Proof.
  destruct ss as [|x ss]; [reflexivity |].
  unfold category_field. rewrite strs_of_strings. reflexivity.
Qed.

Lemma append_df_id x a b c p n o :
  append_to (u "id") x (df6 a b c p n o) = df6 (a ++ [x]) b c p n o.
Proof. reflexivity. Qed.
Lemma append_df_text x a b c p n o :
  append_to (u "text") x (df6 a b c p n o) = df6 a (b ++ [x]) c p n o.
Proof. reflexivity. Qed.
Lemma append_df_company x a b c p n o :
  append_to (u "company") x (df6 a b c p n o) = df6 a b (c ++ [x]) p n o.
Proof. reflexivity. Qed.
Lemma append_df_positive x a b c p n o :
  append_to (u "positive") x (df6 a b c p n o) = df6 a b c (p ++ [x]) n o.
Proof. reflexivity. Qed.
Lemma append_df_negative x a b c p n o :
  append_to (u "negative") x (df6 a b c p n o) = df6 a b c p (n ++ [x]) o.
Proof. reflexivity. Qed.
Lemma append_df_notr x a b c p n o :
  append_to (u "notr") x (df6 a b c p n o) = df6 a b c p n (o ++ [x]).
Proof. reflexivity. Qed.

Lemma aggregate_event_spec e a b c p n o :
  aggregate_event (df6 a b c p n o) (event_json e) =
  Ret match first_unknown_tag (ev_annotations e) with
      | Some t => inr (KeyError (VStr t))
      | None =>
          inl (df6 (a ++ [VInt (ev_page e)]) (b ++ [VStr (ev_text e)])
                   (c ++ [field_of (u "company") e])
                   (p ++ [field_of (u "positive") e])
                   (n ++ [field_of (u "negative") e])
                   (o ++ [field_of (u "notr") e]))
      end.
Proof.
  unfold aggregate_event.
  change (getitem (event_json e) "page") with (Ret (VInt (ev_page e))).
  change (getitem (event_json e) "text") with (Ret (VStr (ev_text e))).
  change (getitem (event_json e) "annotations")
    with (Ret (VList (map annotation_json (ev_annotations e)))).
  cbn [mbind outcome_bind py_iter].
  unfold empty_temp_data. rewrite file_annotations_spec.
  destruct (first_unknown_tag (ev_annotations e)); [reflexivity |].
  cbn [app fill_categories].
  rewrite !category_field_strings.
  cbn [mbind outcome_bind fmap outcome_fmap].
  rewrite append_df_id, append_df_text, append_df_company, append_df_positive,
    append_df_negative, append_df_notr.
  reflexivity.
Qed.

Lemma aggregate_events_spec events : forall a b c p n o,
  aggregate_events (df6 a b c p n o) (map event_json events) =
  Ret match first_unknown events with
      | Some t => inr (KeyError (VStr t))
      | None =>
          inl (df6 (a ++ map (fun e => VInt (ev_page e)) events)
                   (b ++ map (fun e => VStr (ev_text e)) events)
                   (c ++ map (field_of (u "company")) events)
                   (p ++ map (field_of (u "positive")) events)
                   (n ++ map (field_of (u "negative")) events)
                   (o ++ map (field_of (u "notr")) events))
      end.
Proof.
  induction events as [|e events IH]; intros a b c p n o.
  - cbn. rewrite !app_nil_r. reflexivity.
  - cbn [map aggregate_events first_unknown].
    rewrite aggregate_event_spec.
    destruct (first_unknown_tag (ev_annotations e)); [reflexivity |].
    cbn [mbind outcome_bind]. rewrite IH.
    destruct (first_unknown events); [reflexivity |].
    rewrite <- !app_assoc. reflexivity.
Qed.

(** What [json_to_csv] does with a file that holds well-shaped events. *)
Lemma json_to_csv_spec (fs : store) filename events :
  fs !! (FOLDER ++ u "/" ++ filename) = Some (Json (VList (map event_json events))) ->
  json_to_csv FOLDER fs filename =
  match first_unknown events with
  | Some t => (Ret (Some (KeyError (VStr t))), fs)
  | None =>
      (Ret None,
       <[FOLDER ++ u "/" ++ replace (u "json") (u "csv") filename
           := Csv (export_frame events)]> fs)
  end.
Proof.
  intros Hf. unfold json_to_csv, json_load. rewrite Hf.
  cbn [mbind outcome_bind py_iter].
  unfold empty_df_data. rewrite aggregate_events_spec.
  destruct (first_unknown events); reflexivity.
Qed.

Lemma first_unknown_tag_None l :
  first_unknown_tag l = None <->
  Forall (fun a => known_tag (an_tag a) = true) l.
Proof.
  induction l as [|a l IH]; cbn.
  - split; [constructor | reflexivity].
  - destruct (known_tag (an_tag a)) eqn:Hk.
    + rewrite IH. split; [constructor; assumption | inversion 1; assumption].
    + split; [discriminate | inversion 1; congruence].
Qed.

Lemma first_unknown_tag_Some l t :
  first_unknown_tag l = Some t ->
  known_tag t = false /\ exists a, In a l /\ an_tag a = t.
Proof.
  induction l as [|a l IH]; cbn; [discriminate |].
  destruct (known_tag (an_tag a)) eqn:Hk.
  - intros H. destruct (IH H) as [Ht [a' [Hin Ha']]].
    split; [exact Ht |]. exists a'. split; [right |]; assumption.
  - inversion 1; subst. split; [exact Hk |]. exists a. split; [left |]; reflexivity.
Qed.

Lemma first_unknown_None events :
  first_unknown events = None <->
  Forall (fun e => Forall (fun a => known_tag (an_tag a) = true) (ev_annotations e))
         events.
Proof.
  induction events as [|e events IH]; cbn.
  - split; [constructor | reflexivity].
  - destruct (first_unknown_tag (ev_annotations e)) eqn:Hu.
    + split; [discriminate |]. inversion 1; subst.
      apply first_unknown_tag_None in H2. congruence.
    + apply first_unknown_tag_None in Hu. rewrite IH.
      split; [constructor; assumption | inversion 1; assumption].
Qed.

Lemma first_unknown_Some events t :
  first_unknown events = Some t ->
  known_tag t = false /\
  exists e a, In e events /\ In a (ev_annotations e) /\ an_tag a = t.
Proof.
  induction events as [|e events IH]; cbn; [discriminate |].
  destruct (first_unknown_tag (ev_annotations e)) eqn:Hu.
  - inversion 1; subst.
    destruct (first_unknown_tag_Some _ _ Hu) as [Ht [a [Hin Ha]]].
    split; [exact Ht |]. exists e, a. repeat split; [left; reflexivity | |]; assumption.
  - intros H. destruct (IH H) as [Ht [e' [a [He [Hin Ha]]]]].
    split; [exact Ht |]. exists e', a. repeat split; [right |..]; assumption.
Qed.

(** Whatever the file holds, [json_to_csv] either returns [None] or leaves
    the store as it found it. *)
Lemma json_to_csv_all_or_nothing (fs : store) filename :
  fst (json_to_csv FOLDER fs filename) <> Ret None ->
  snd (json_to_csv FOLDER fs filename) = fs.
Proof.
  unfold json_to_csv.
  match goal with |- context [match ?r with Ret _ => _ | Raise _ => _ end] =>
    destruct r as [[df | err] | e] end; cbn [fst snd]; congruence.
Qed.

(** C1: when the file holds well-shaped events and some annotation of
    some event carries a tag outside [FIRMA], [POZITIF], [NEGATIF], [NOTR],
    [json_to_csv] returns the [KeyError] of an offending tag and leaves the
    file store as it found it: no row, no file. *)
Theorem json_to_csv_unknown_tag (fs : store) filename events :
  fs !! (FOLDER ++ u "/" ++ filename) = Some (Json (VList (map event_json events))) ->
  (exists e a, In e events /\ In a (ev_annotations e) /\ known_tag (an_tag a) = false) ->
  exists t,
    known_tag t = false /\
    (exists e a, In e events /\ In a (ev_annotations e) /\ an_tag a = t) /\
    json_to_csv FOLDER fs filename = (Ret (Some (KeyError (VStr t))), fs).
Proof.
  intros Hf (e & a & He & Ha & Hk).
  rewrite (json_to_csv_spec _ _ _ Hf).
  destruct (first_unknown events) as [t|] eqn:Hu.
  - destruct (first_unknown_Some _ _ Hu) as [Ht Hocc]. eauto.
  - exfalso. apply first_unknown_None in Hu.
    rewrite List.Forall_forall in Hu. specialize (Hu e He).
    rewrite List.Forall_forall in Hu. specialize (Hu a Ha). congruence.
Qed.

Lemma rows_of_export events :
  itertuples (export_frame events) =
  map (fun e => [ VInt (ev_page e); VStr (ev_text e);
                  field_of (u "company") e; field_of (u "positive") e;
                  field_of (u "negative") e; field_of (u "notr") e ]) events.
Proof.
  unfold itertuples, export_frame. cbn [map snd].
  induction events as [|e events IH]; [reflexivity |].
  cbn [map rows_of zip_with] in *. rewrite IH. reflexivity.
Qed.

(** C8: when every tag of a well-shaped submission is one of the four,
    [json_to_csv] writes a table whose columns are [id], [text], [company],
    [positive], [negative], [notr] in that order and whose rows are the
    events' rows, one per event (two events of one page give two rows), in
    the order of the submission. *)
Theorem json_to_csv_rows (fs : store) filename events :
  fs !! (FOLDER ++ u "/" ++ filename) = Some (Json (VList (map event_json events))) ->
  Forall (fun e => Forall (fun a => known_tag (an_tag a) = true) (ev_annotations e))
         events ->
  exists df,
    json_to_csv FOLDER fs filename =
      (Ret None,
       <[FOLDER ++ u "/" ++ replace (u "json") (u "csv") filename := Csv df]> fs) /\
    map fst df =
      [u "id"; u "text"; u "company"; u "positive"; u "negative"; u "notr"] /\
    length (itertuples df) = length events /\
    itertuples df =
      map (fun e => [ VInt (ev_page e); VStr (ev_text e);
                      field_of (u "company") e; field_of (u "positive") e;
                      field_of (u "negative") e; field_of (u "notr") e ]) events.
Proof.
  intros Hf Hk. exists (export_frame events).
  rewrite (json_to_csv_spec _ _ _ Hf).
  apply first_unknown_None in Hk. rewrite Hk.
  rewrite rows_of_export, length_map. auto.
Qed.

Lemma set_order_const (Hsi : set_order_ok si) h l :
  l <> [] -> (forall x, In x l -> x = h) -> set_order l = [h].
Proof.
  intros Hne Hall. destruct (Hsi l) as [Hnd Hin].
  assert (Hh : In h (set_order l)).
  { destruct l as [|x l]; [congruence |].
    apply Hin. left. apply Hall. left. reflexivity. }
  assert (Hall' : forall x, In x (set_order l) -> x = h).
  { intros x Hx. apply Hall, Hin, Hx. }
  destruct (set_order l) as [|a [|b r]].
  - destruct Hh.
  - f_equal. apply Hall'. left. reflexivity.
  - exfalso. rewrite (Hall' a), (Hall' b) in Hnd by (simpl; auto).
    apply NoDup_cons in Hnd as [Hnd _]. apply Hnd. left.
Qed.

(** C3: the worked example.  The event with page 1, text ["hello world"],
    two identical annotations [POZITIF]/["hello"] and one
    [NEGATIF]/["world"] gives the single row
    [1, "hello world", "", "hello", "world", ""]: the repeated text appears
    once, the categories without annotation are empty strings. *)
Theorem json_to_csv_scenario (Hsi : set_order_ok si) (fs : store) filename :
  fs !! (FOLDER ++ u "/" ++ filename) = Some (Json (VList [scenario_json])) ->
  json_to_csv FOLDER fs filename =
    (Ret None,
     <[FOLDER ++ u "/" ++ replace (u "json") (u "csv") filename :=
         Csv [ (u "id", [VInt 1]);
               (u "text", [VStr (u "hello world")]);
               (u "company", [VStr []]);
               (u "positive", [VStr (u "hello")]);
               (u "negative", [VStr (u "world")]);
               (u "notr", [VStr []]) ]]> fs).
Proof.
  intros Hf.
  change [scenario_json] with (map event_json [scenario_event]) in Hf.
  rewrite (json_to_csv_spec _ _ _ Hf).
  change (first_unknown [scenario_event]) with (@None str).
  unfold export_frame, field_of. cbn [map].
  change (texts_for (u "company") (ev_annotations scenario_event)) with (@nil str).
  change (texts_for (u "notr") (ev_annotations scenario_event)) with (@nil str).
  change (texts_for (u "positive") (ev_annotations scenario_event))
    with [u "hello"; u "hello"].
  change (texts_for (u "negative") (ev_annotations scenario_event))
    with [u "world"].
  cbv zeta.
  rewrite (set_order_const Hsi (u "hello") [u "hello"; u "hello"]).
  2: discriminate.
  2: { intros x [<- | [<- | []]]; reflexivity. }
  rewrite (set_order_const Hsi (u "world") [u "world"]).
  2: discriminate.
  2: { intros x [<- | []]; reflexivity. }
  reflexivity.
Qed.

Context {sk : sink} {os : file_system}.





(** What [export_json] does with a named, well-shaped submission. *)
Lemma export_json_spec w s events :
  s <> [] ->
  let req := VDict [ (u "dataset", VStr s);
                     (u "data", VList (map event_json events)) ] in
  let filename := replace (u "csv") (u "json") (replace (u "xlsx") (u "json") s) in
  let stored :=
    <[FOLDER ++ u "/" ++ filename := Json (VList (map event_json events))]> (files w) in
  let aggregated :=
    <[FOLDER ++ u "/" ++ replace (u "json") (u "csv") filename
        := Csv (export_frame events)]> stored in
  export_json FOLDER w req =
  match open_w (FOLDER ++ u "/" ++ filename) with
  | Some e => (Raise e, {| files := files w; datasets := datasets w |})
  | None =>
  if utf8_ok (VList (map event_json events)) then
  match first_unknown events with
  | Some t =>
      (Ret (iserr "Something went wrong" (KeyError (VStr t))),
       {| files := stored; datasets := datasets w |})
  | None =>
      match insert_one (datasets w) req with
      | Some err =>
          (Ret (iserr "Something went wrong" err),
           {| files := aggregated; datasets := datasets w |})
      | None =>
          match insert_one (datasets w ++ [req]) req with
          | Some err =>
              (Ret (iserr "Something went wrong." err),
               {| files := aggregated; datasets := datasets w ++ [req] |})
          | None =>
              (Ret (redirect "export_data"),
               {| files := aggregated; datasets := (datasets w ++ [req]) ++ [req] |})
          end
      end
  end
  else (Raise (UnicodeEncodeError "surrogates not allowed"),
        {| files := <[FOLDER ++ u "/" ++ filename := Truncated]> (files w);
           datasets := datasets w |})
  end.
Proof.
  intros Hs. cbv zeta. unfold export_json.
  assert (Hnp : nothing_provided
            (VDict [ (u "dataset", VStr s);
                     (u "data", VList (map event_json events)) ]) = Ret false).
  { destruct s; [congruence | reflexivity]. }
  rewrite Hnp.
  change (py_get (VDict [(u "dataset", VStr s);
                         (u "data", VList (map event_json events))]) "dataset")
    with (Ret (VStr s)).
  change (py_get (VDict [(u "dataset", VStr s);
                         (u "data", VList (map event_json events))]) "data")
    with (Ret (VList (map event_json events))).
  cbn [mbind outcome_bind replace_method].
  unfold json_dump_to.
  destruct (open_w _); [reflexivity |].
  destruct (utf8_ok (VList _)); [| reflexivity].
  rewrite (json_to_csv_spec _ _ events) by apply lookup_insert_eq.
  destruct (first_unknown events); [reflexivity |].
  unfold save_to_db.
  destruct (insert_one (datasets w) _); [reflexivity |].
  destruct (insert_one (datasets w ++ _) _); reflexivity.
Qed.


(** A submission with a dataset name and nothing to aggregate. *)
Lemma export_json_empty_data w d s :
  dict_get (u "dataset") d = Some (VStr s) ->
  s <> [] ->
  is_in (default VNone (dict_get (u "data") d))
        [VNone; VStr []; VDict []; VList []] = true ->
  let data := default VNone (dict_get (u "data") d) in
  let filename := replace (u "csv") (u "json") (replace (u "xlsx") (u "json") s) in
  let written := <[FOLDER ++ u "/" ++ filename := Json data]> (files w) in
  nothing_provided (VDict d) = Ret false /\
  match open_w (FOLDER ++ u "/" ++ filename) with
  | Some e =>
      fst (export_json FOLDER w (VDict d)) = Raise e /\
      files (snd (export_json FOLDER w (VDict d))) = files w
  | None =>
      files (snd (export_json FOLDER w (VDict d))) =
      match data with
      | VNone => written
      | _ =>
          <[FOLDER ++ u "/" ++ replace (u "json") (u "csv") filename
              := Csv empty_df_data]> written
      end
  end.
Proof.
  intros Hd Hs Hdata. cbv zeta.
  assert (Hnp : nothing_provided (VDict d) = Ret false).
  { unfold nothing_provided, py_get. rewrite Hd.
    cbn [default mbind outcome_bind]. destruct s; [congruence | reflexivity]. }
  split; [exact Hnp |].
  unfold export_json. rewrite Hnp.
  unfold py_get. rewrite Hd.
  cbn [default from_option id mbind outcome_bind replace_method].
  unfold json_dump_to. destruct (open_w _); [split; reflexivity |].
  destruct (default VNone (dict_get (u "data") d)) as [| | | |[|]|[|]|[|]];
    try discriminate Hdata; cbn [utf8_ok utf8_str forallb];
    unfold json_to_csv, json_load; rewrite lookup_insert_eq;
    cbn [py_iter map mbind outcome_bind aggregate_events];
    try reflexivity.
  all: unfold save_to_db;
       repeat match goal with |- context [insert_one ?a ?b] =>
         destruct (insert_one a b) end; reflexivity.
Qed.


(** C5 at the failing input: the dataset name ["xlsx_data.csv"].  The
    submission is stored as ["json_data.json"] and aggregated into
    ["csv_data.csv"]: the [xlsx] inside the base name was rewritten too.
    (The only other outcome is that [json_data.json] cannot be opened.) *)
Theorem export_json_rewrites_base_name w :
  files (snd (export_json FOLDER w
    (VDict [ (u "dataset", VStr (u "xlsx_data.csv")); (u "data", VList []) ]))) =
  match open_w (FOLDER ++ u "/" ++ u "json_data.json") with
  | None =>
      <[FOLDER ++ u "/" ++ u "csv_data.csv" := Csv empty_df_data]>
        (<[FOLDER ++ u "/" ++ u "json_data.json" := Json (VList [])]> (files w))
  | Some _ => files w
  end.
Proof.
  pose proof (proj2 (export_json_empty_data w
                [ (u "dataset", VStr (u "xlsx_data.csv")); (u "data", VList []) ]
                (u "xlsx_data.csv") eq_refl ltac:(discriminate) eq_refl)) as H.
  cbv zeta in H.
  change (replace (u "csv") (u "json")
            (replace (u "xlsx") (u "json") (u "xlsx_data.csv")))
    with (u "json_data.json") in H.
  destruct (open_w (FOLDER ++ u "/" ++ u "json_data.json")).
  - exact (proj2 H).
  - exact H.
Qed.

End AggregatorFacts.

(** ** Cleaning and extraction *)

Section DatasetFacts.
Context {db : unicode_db} {pl : pandas_lib}.

(** C4 at the failing input: a workbook named ["data.xlsx"].  The second
    test of [data_cleaner] looks for [xslx], so nothing is loaded and the
    answer is the error response, whatever the store holds. *)
Theorem data_cleaner_rejects_xlsx (fs : store) :
  data_cleaner fs (u "data.xlsx") =
  (iserr cleaning_failed
     (FileNotFoundError "DataFrame is not implemented via files."), fs).
Proof. reflexivity. Qed.

Lemma replace_from_length old new s : forall skip,
  (length old <= length new)%nat -> old <> [] ->
  (length s <= length (replace_from old new skip s) + skip)%nat.
Proof.
  induction s as [|c s IH]; intros skip Hl Ho; cbn [replace_from length].
  - lia.
  - destruct skip as [|n].
    + destruct (starts_with old (c :: s)).
      * rewrite length_app. specialize (IH (length old - 1)%nat Hl Ho).
        destruct old; [congruence |]. cbn [length] in *. lia.
      * cbn [length]. specialize (IH O Hl Ho). lia.
    + specialize (IH n Hl Ho). lia.
Qed.

Lemma replace_from_longer old new s :
  (length old < length new)%nat -> old <> [] ->
  contains old s = true ->
  (length s < length (replace_from old new O s))%nat.
Proof.
  intros Hl Ho. induction s as [|c s IH]; cbn [contains replace_from length].
  - destruct old; [congruence | discriminate].
  - intros Hc. destruct (starts_with old (c :: s)) eqn:Hsw.
    + rewrite length_app.
      pose proof (replace_from_length old new s (length old - 1)%nat
                    ltac:(lia) Ho) as H.
      destruct old; [congruence |]. cbn [length] in *. lia.
    + cbn [orb] in Hc. specialize (IH Hc). cbn [length]. lia.
Qed.

Lemma mirror_name_differs filename :
  contains (u "csv") filename = true ->
  CLEAN_DATA ++ replace (u "csv") (u "xlsx") filename <> CLEAN_DATA ++ filename.
Proof.
  intros Hc Heq. apply app_inv_head in Heq.
  pose proof (replace_from_longer (u "csv") (u "xlsx") filename) as H.
  change (replace (u "csv") (u "xlsx") filename)
    with (replace_from (u "csv") (u "xlsx") O filename) in Heq.
  rewrite Heq in H. cbn [length u map list_ascii_of_string] in H.
  specialize (H ltac:(lia) ltac:(discriminate) Hc). lia.
Qed.

Lemma traverse_clean_strings texts :
  Forall (fun v => is_string v = true) texts ->
  exists cleaned, traverse clean_cell texts = Ret cleaned.
Proof.
  induction 1 as [|v texts Hv Ht [cleaned IH]]; [eexists; reflexivity |].
  destruct v; try discriminate. cbn [traverse clean_cell mbind outcome_bind].
  rewrite IH. eexists. reflexivity.
Qed.

(** Where cleaning gets as far as writing the delimited file. *)
Lemma data_cleaner_writes (fs : store) filename df0 texts :
  contains (u "csv") filename = true ->
  contains (u "xslx") filename = false ->
  fs !! (UPLOADS ++ filename) = Some (Csv df0) ->
  column (u "text") df0 = Some texts ->
  Forall (fun v => is_string v = true) texts ->
  exists cleaned,
    snd (data_cleaner fs filename) !! (CLEAN_DATA ++ filename) =
    Some (Csv (set_column (u "clean_text") cleaned df0)).
Proof.
  intros Hc Hx Hf Ht Hs.
  destruct (traverse_clean_strings texts Hs) as [cleaned Hcl].
  exists cleaned. unfold data_cleaner, load_raw, read_csv, text_attr.
  rewrite Hc, Hx, Hf. cbn [fmap outcome_fmap mbind outcome_bind].
  rewrite Ht. cbn [mbind outcome_bind]. rewrite Hcl.
  cbn [mbind outcome_bind].
  unfold csv_to_xlsx, read_csv. rewrite lookup_insert_eq.
  destruct (sheet_of _); cbn [snd].
  - rewrite lookup_insert_ne by (apply mirror_name_differs, Hc).
    apply lookup_insert_eq.
  - apply lookup_insert_eq.
Qed.

(** *** Columns *)

Lemma column_set_column_ne n name cells (df : frame) :
  n <> name -> column n (set_column name cells df) = column n df.
Proof.
  intros Hne. unfold set_column, column.
  destruct (dict_get name df) as [old|] eqn:E; clear E.
  - induction df as [|[k c] df IH]; [reflexivity |].
    cbn [map dict_get fst snd].
    destruct (decide (k = name)) as [->|Hk]; cbn [dict_get].
    + destruct (decide (n = name)); [congruence | exact IH].
    + destruct (decide (n = k)); [reflexivity | exact IH].
  - induction df as [|[k c] df IH]; cbn [app dict_get].
    + destruct (decide (n = name)); [congruence | reflexivity].
    + destruct (decide (n = k)); [reflexivity | exact IH].
Qed.

Lemma keep_set_column (names : list str) name cells (df : frame) :
  name ∉ names ->
  List.filter (fun col => bool_decide (col.1 ∈ names)) (set_column name cells df) =
  List.filter (fun col => bool_decide (col.1 ∈ names)) df.
Proof.
  intros Hn. unfold set_column.
  destruct (column name df) as [old|].
  - induction df as [|[k c] df IH]; [reflexivity |].
    cbn [map List.filter fst snd]. rewrite IH.
    destruct (decide (k = name)) as [->|Hk]; cbn [fst]; [| reflexivity].
    rewrite bool_decide_eq_false_2 by exact Hn. reflexivity.
  - rewrite List.filter_app. cbn [List.filter fst].
    rewrite bool_decide_eq_false_2 by exact Hn. apply app_nil_r.
Qed.

Lemma usecols_set_column (names : list str) name cells (df : frame) :
  name ∉ names ->
  usecols names (set_column name cells df) = usecols names df.
Proof.
  intros Hn. unfold usecols. rewrite keep_set_column by exact Hn.
  replace (forallb (fun n => bool_decide (is_Some (column n (set_column name cells df)))) names)
    with (forallb (fun n => bool_decide (is_Some (column n df))) names);
    [reflexivity |].
  induction names as [|m names IH]; [reflexivity |].
  cbn [forallb]. rewrite IH by set_solver.
  rewrite column_set_column_ne by set_solver. reflexivity.
Qed.


Lemma usecols_names (names : list str) (df p : frame) :
  usecols names df = Ret p -> Forall (fun col => col.1 ∈ names) p.
Proof.
  unfold usecols. destruct (forallb _ names); [| discriminate].
  inversion 1; subst. apply List.Forall_forall. intros col Hin.
  apply List.filter_In in Hin as [_ Hin]. apply bool_decide_eq_true in Hin. exact Hin.
Qed.

Lemma load_clean_names (fs : store) filename df :
  load_clean fs filename = Ret df -> Forall (fun col => col.1 ∈ id_text) df.
Proof.
  unfold load_clean.
  destruct (contains (u "xlsx") filename).
  - destruct (contains (u "csv") filename);
      [destruct (read_csv fs _ ≫= usecols id_text); cbn; [| discriminate] | cbn ].
    all: destruct (read_excel fs _) as [d|]; cbn; [| discriminate].
    all: destruct (usecols id_text d) eqn:E; cbn; [| discriminate].
    all: inversion 1; subst; eapply usecols_names, E.
  - destruct (contains (u "csv") filename); cbn; [| discriminate].
    destruct (read_csv fs _) as [d|]; cbn; [| discriminate].
    destruct (usecols id_text d) eqn:E; cbn; [| discriminate].
    inversion 1; subst. eapply usecols_names, E.
Qed.

(** *** Rows *)

Lemma zip_with_pick (g : value -> value -> list value) (n : str) :
  forall (I T : list value),
  length I = length T ->
  zip_with cons (if decide (n = u "id") then I else T) (zip_with g I T) =
  zip_with (fun i t => (if decide (n = u "id") then i else t) :: g i t) I T.
Proof.
  destruct (decide (n = u "id")).
  - induction I as [|i I IH]; intros [|t T] Hl; try discriminate; [reflexivity |].
    injection Hl as Hl. cbn [zip_with]. rewrite (IH T Hl). reflexivity.
  - induction I as [|i I IH]; intros [|t T] Hl; try discriminate; [reflexivity |].
    injection Hl as Hl. cbn [zip_with]. rewrite (IH T Hl). reflexivity.
Qed.

Lemma zip_with_single (n : str) : forall (I T : list value),
  length I = length T ->
  map (fun v => [v]) (if decide (n = u "id") then I else T) =
  zip_with (fun i t => [if decide (n = u "id") then i else t]) I T.
Proof.
  destruct (decide (n = u "id")).
  - induction I as [|i I IH]; intros [|t T] Hl; try discriminate; [reflexivity |].
    injection Hl as Hl. cbn [zip_with map]. rewrite (IH T Hl). reflexivity.
  - induction I as [|i I IH]; intros [|t T] Hl; try discriminate; [reflexivity |].
    injection Hl as Hl. cbn [zip_with map]. rewrite (IH T Hl). reflexivity.
Qed.

Lemma rows_of_id_text (names : list str) (I T : list value) :
  names <> [] -> length I = length T ->
  rows_of (map (fun n => if decide (n = u "id") then I else T) names) =
  zip_with (row_in_order names) I T.
Proof.
  intros Hne Hl. induction names as [|n names IH]; [congruence |].
  destruct names as [|m names].
  - cbn [map rows_of]. apply zip_with_single, Hl.
  - change (rows_of (map (fun n => if decide (n = u "id") then I else T) (n :: m :: names)))
      with (zip_with cons (if decide (n = u "id") then I else T)
              (rows_of (map (fun n => if decide (n = u "id") then I else T) (m :: names)))).
    rewrite IH by discriminate. apply zip_with_pick, Hl.
Qed.

Lemma set_id_text (df : frame) I T ids texts :
  Forall (fun col => col.1 ∈ id_text) df ->
  column (u "id") df = Some ids -> column (u "text") df = Some texts ->
  map snd (set_column (u "text") T (set_column (u "id") I df)) =
  map (fun n => if decide (n = u "id") then I else T) (map fst df).
Proof.
  intros Hn Hi Ht. unfold set_column at 2. rewrite Hi.
  unfold set_column.
  rewrite <- (column_set_column_ne (u "text") (u "id") I df) in Ht by discriminate.
  unfold set_column in Ht. rewrite Hi in Ht. rewrite Ht. clear Hi Ht.
  induction Hn as [|[k c] df Hk Hn IH]; [reflexivity |].
  cbn [map fst snd]. rewrite IH. f_equal. cbn [fst] in Hk.
  destruct (decide (k = u "id")) as [->|Hne]; cbn [fst snd].
  - destruct (decide (u "id" = u "text")); [discriminate | reflexivity].
  - assert (k = u "text") as ->.
    { unfold id_text in Hk. rewrite !elem_of_cons, elem_of_nil in Hk. tauto. }
    destruct (decide (u "text" = u "text")); [reflexivity | congruence].
Qed.

Lemma traverse_length {A B} (f : A -> outcome B) l l' :
  traverse f l = Ret l' -> length l' = length l.
Proof.
  revert l'. induction l as [|x l IH]; intros l'; cbn [traverse].
  - inversion 1. reflexivity.
  - destruct (f x); cbn; [| discriminate].
    destruct (traverse f l); cbn; [| discriminate].
    inversion 1; subst. cbn. f_equal. apply IH. reflexivity.
Qed.



Lemma traverse_raise {A B} (f : A -> outcome B) l x e :
  In x l -> f x = Raise e -> exists e', traverse f l = Raise e'.
Proof.
  induction l as [|a l IH]; [inversion 1 |].
  intros [-> | Hin] Hx; cbn [traverse].
  - rewrite Hx. eexists. reflexivity.
  - destruct (f a); cbn; [| eexists; reflexivity].
    destruct (IH Hin Hx) as [e' ->]. eexists. reflexivity.
Qed.

(** What extraction returns once the file is loaded. *)
Lemma extract_loaded (fs : store) filename df ids texts :
  load_clean fs filename = Ret df ->
  column (u "id") df = Some ids -> column (u "text") df = Some texts ->
  length ids = length texts ->
  extract_text_and_ids_from_dataset fs filename =
  (ids' ← traverse astype_int64 ids;
   Ret (zip_with (row_in_order (map fst df)) ids' (map astype_string texts))).
Proof.
  intros Hl Hi Ht Hlen. unfold extract_text_and_ids_from_dataset, df_getitem.
  rewrite Hl. cbn [mbind outcome_bind]. rewrite Hi. cbn [mbind outcome_bind].
  destruct (traverse astype_int64 ids) as [ids'|] eqn:Hc; cbn [mbind outcome_bind];
    [| reflexivity].
  rewrite column_set_column_ne by discriminate. rewrite Ht.
  cbn [mbind outcome_bind]. unfold itertuples.
  rewrite (set_id_text df ids' _ ids texts (load_clean_names _ _ _ Hl) Hi Ht).
  rewrite rows_of_id_text; [reflexivity | |].
  - destruct df; [discriminate | discriminate].
  - rewrite length_map, (traverse_length _ _ _ Hc). exact Hlen.
Qed.

Lemma usecols_id_text (df : frame) ids texts :
  column (u "id") df = Some ids -> column (u "text") df = Some texts ->
  usecols id_text df =
  Ret (List.filter (fun col => bool_decide (col.1 ∈ id_text)) df).
Proof.
  intros Hi Ht. unfold usecols. cbn [forallb id_text].
  rewrite Hi, Ht. rewrite !bool_decide_eq_true_2 by eauto. reflexivity.
Qed.


(** C6 at the failing names: a valid dataset uploaded as a delimited file
    whose name contains [csv] and also [xlsx] (["xlsx_a.csv"]).
    [data_cleaner] reads it by the first test and writes the cleaned
    delimited file; [extract_text_and_ids_from_dataset] then runs both of
    its tests, reads that delimited file as a workbook and raises: nothing
    is extracted from the dataset just written (in the model the exception
    is that of [read_excel]). *)
Theorem cleaned_dataset_not_extracted (fs : store) filename df0 ids texts :
  contains (u "csv") filename = true ->
  contains (u "xlsx") filename = true ->
  contains (u "xslx") filename = false ->
  fs !! (UPLOADS ++ filename) = Some (Csv df0) ->
  column (u "id") df0 = Some ids ->
  column (u "text") df0 = Some texts ->
  length ids = length texts ->
  Forall (fun v => valid_id v = true) ids ->
  Forall (fun v => is_string v = true) texts ->
  (exists cleaned,
     snd (data_cleaner fs filename) !! (CLEAN_DATA ++ filename) =
     Some (Csv (set_column (u "clean_text") cleaned df0))) /\
  exists e,
    extract_text_and_ids_from_dataset (snd (data_cleaner fs filename)) filename =
    Raise e.
Proof.
  intros Hc Hx Hs Hf Hi Ht _ _ Hvt.
  destruct (data_cleaner_writes fs filename df0 texts Hc Hs Hf Ht Hvt)
    as [cleaned Hw].
  split; [eauto |].
  unfold extract_text_and_ids_from_dataset, load_clean, read_csv, read_excel.
  rewrite Hc, Hx, Hw. cbn [mbind outcome_bind fmap outcome_fmap].
  rewrite usecols_set_column
    by (unfold id_text; rewrite !elem_of_cons, elem_of_nil;
        intros [H | [H | []]]; discriminate H).
  rewrite (usecols_id_text df0 ids texts Hi Ht). eexists. reflexivity.
Qed.

(** *** The casts *)







End DatasetFacts.

(** ** The theorems at concrete inputs *)

Lemma first_seen_ok : set_order_ok first_seen.
Proof.
  intros l. split.
  - apply (NoDup_remove_dups l).
  - intros x. rewrite <- !list_elem_of_In. apply (elem_of_remove_dups l).
Qed.

Lemma json_to_csv_unknown_tag_witness :
  exists t,
    known_tag t = false /\
    (exists e a,
       In e [scenario_event; unknown_event] /\ In a (ev_annotations e) /\ an_tag a = t) /\
    @json_to_csv first_seen sample_folder mixed_store (u "d.json") =
      (Ret (Some (KeyError (VStr t))), mixed_store).
Proof.
  apply (@json_to_csv_unknown_tag first_seen sample_folder mixed_store (u "d.json")
           [scenario_event; unknown_event]).
  - reflexivity.
  - exists unknown_event, {| an_tag := u "UNKNOWN"; an_text := u "x" |}.
    split; [right; left; reflexivity |].
    split; [left; reflexivity | reflexivity].
Defined.

Lemma json_to_csv_scenario_witness :
  @json_to_csv first_seen sample_folder scenario_store (u "d.json") =
    (Ret None,
     <[sample_folder ++ u "/" ++ replace (u "json") (u "csv") (u "d.json") :=
         Csv [ (u "id", [VInt 1]);
               (u "text", [VStr (u "hello world")]);
               (u "company", [VStr []]);
               (u "positive", [VStr (u "hello")]);
               (u "negative", [VStr (u "world")]);
               (u "notr", [VStr []]) ]]> scenario_store).
Proof.
  apply (@json_to_csv_scenario first_seen sample_folder first_seen_ok
           scenario_store (u "d.json")).
  reflexivity.
Defined.

Lemma json_to_csv_rows_witness :
  exists df,
    @json_to_csv first_seen sample_folder twice_store (u "d.json") =
      (Ret None,
       <[sample_folder ++ u "/" ++ replace (u "json") (u "csv") (u "d.json")
           := Csv df]> twice_store) /\
    map fst df =
      [u "id"; u "text"; u "company"; u "positive"; u "negative"; u "notr"] /\
    length (itertuples df) = length [scenario_event; scenario_event] /\
    itertuples df =
      map (fun e => [ VInt (ev_page e); VStr (ev_text e);
                      @field_of first_seen (u "company") e;
                      @field_of first_seen (u "positive") e;
                      @field_of first_seen (u "negative") e;
                      @field_of first_seen (u "notr") e ])
          [scenario_event; scenario_event].
Proof.
  apply (@json_to_csv_rows first_seen sample_folder twice_store (u "d.json")
           [scenario_event; scenario_event]).
  - reflexivity.
  - repeat constructor.
Defined.




Lemma cleaned_dataset_not_extracted_witness :
  (exists cleaned,
     snd (@data_cleaner ascii_db strict_pandas upload_store_xlsx_name (u "xlsx_a.csv"))
       !! (CLEAN_DATA ++ u "xlsx_a.csv") =
     Some (Csv (set_column (u "clean_text") cleaned sample_raw))) /\
  @extract_text_and_ids_from_dataset strict_pandas
    (snd (@data_cleaner ascii_db strict_pandas upload_store_xlsx_name (u "xlsx_a.csv")))
    (u "xlsx_a.csv") =
  Raise (ValueError "Excel file format cannot be determined").
Proof.
  destruct (@cleaned_dataset_not_extracted ascii_db strict_pandas upload_store_xlsx_name
           (u "xlsx_a.csv") sample_raw [VInt 1; VInt 2]
           [VStr (u "Merhaba! 12"); VStr (u "a b")]
           eq_refl eq_refl eq_refl eq_refl eq_refl eq_refl eq_refl)
    as [Hw [e He]].
  - repeat constructor.
  - repeat constructor.
  - split; [exact Hw | reflexivity].
Defined.


(** * Further properties *)

(** ** The normaliser *)

Section MoreTextFacts.
Context {db : unicode_db}.

(** X1: whatever the input, the normalised text is made of lower-case ASCII
    letters and spaces only: no digit, no capital, no punctuation, no tab or
    line break, no letter beyond ASCII. *)
Theorem normalize_alphabet (Hdb : db_sound db) (x : str) :
  Forall (fun c => letter_or_space c = true) (normalize x).
Proof. apply clean_text_alphabet, Hdb. Qed.

Lemma translate_cp_cases c :
  translate_cp turkish_table c = c \/
  (is_ascii c = false /\ is_ascii (translate_cp turkish_table c) = true).
Proof.
  unfold turkish_table. cbn [translate_cp].
  repeat match goal with
  | |- context [c =? ?k] =>
      destruct (N.eqb_spec c k); [subst; right; split; reflexivity |]
  end.
  left. reflexivity.
Qed.

Lemma translate_cp_ascii c :
  is_ascii c = true -> translate_cp turkish_table c = c.
Proof.
  intros Ha. destruct (translate_cp_cases c) as [H | [H _]]; [exact H | congruence].
Qed.

(** X2: [turkish_characters] replaces character by character, as the two
    strings of its [maketrans] say: the j-th of [ğĞıİöÖüÜşŞçÇ] becomes the
    j-th of [gGiIoOuUsScC], wherever it stands, and every other character,
    ASCII or not, stays what it is.  So the length is kept and a second
    application changes nothing. *)
Theorem turkish_characters_pointwise (s : str) :
  length (turkish_characters s) = length s /\
  (forall k c, s !! k = Some c ->
     exists d, turkish_characters s !! k = Some d /\
       (forall j : nat,
          [287; 286; 305; 304; 246; 214; 252; 220; 351; 350; 231; 199] !! j = Some c ->
          u "gGiIoOuUsScC" !! j = Some d) /\
       (c ∉ [287; 286; 305; 304; 246; 214; 252; 220; 351; 350; 231; 199] -> d = c)) /\
  turkish_characters (turkish_characters s) = turkish_characters s.
Proof.
  unfold turkish_characters. split; [apply length_map |]. split.
  - intros k c Hk. exists (translate_cp turkish_table c).
    rewrite list_lookup_fmap, Hk. split; [reflexivity |]. split.
    + intros j Hj.
      do 12 (destruct j as [|j]; [inversion Hj; subst c; reflexivity |]).
      inversion Hj.
    + intros Hn. repeat (apply not_elem_of_cons in Hn as [? Hn]).
      unfold turkish_table. cbn [translate_cp].
      repeat match goal with
      | |- context [c =? ?k] => destruct (N.eqb_spec c k); [congruence |]
      end.
      reflexivity.
  - rewrite map_map. apply map_ext. intros c.
    destruct (translate_cp_cases c) as [H | [_ H]].
    + rewrite H. exact H.
    + apply translate_cp_ascii, H.
Qed.

Lemma split_go_spaces s :
  Forall (fun c => is_space c = true) s -> split_go [] s = [].
Proof.
  induction 1 as [|c s Hc Hs IH]; [reflexivity |].
  cbn [split_go]. rewrite Hc. exact IH.
Qed.

(** X3: a text made of ASCII white space only (the empty text included)
    is normalised to the empty text. *)
Theorem normalize_blank (s : str) :
  Forall (fun c => ascii_space c = true) s -> normalize s = [].
Proof.
  intros Hs.
  assert (Ha : Forall (fun c => is_ascii c = true) s).
  { eapply Forall_impl; [exact Hs |]. intros c Hc. cls. }
  assert (Ht : turkish_characters s = s).
  { unfold turkish_characters. clear Hs.
    induction Ha as [|c s Hc Ha IH]; [reflexivity |].
    cbn [map]. rewrite IH, (translate_cp_ascii c Hc). reflexivity. }
  assert (Hl : lower s = s).
  { unfold lower. generalize (@nil N) as pre. clear Ha Ht.
    induction Hs as [|c s Hc Hs IH]; intros pre; [reflexivity |].
    cbn [lower_from]. rewrite IH. unfold lower_cp.
    assert (Hu : ascii_upper c = false) by cls.
    assert (Hi : is_ascii c = true) by cls.
    rewrite Hu, Hi. reflexivity. }
  unfold normalize, clean_text. rewrite Ht, Hl.
  unfold split. rewrite split_go_spaces.
  - cbn [List.filter join]. unfold re_sub. cbn [sub_from].
    rewrite noise_nil. reflexivity.
  - clear Ht Hl. induction Hs as [|c s Hc Hs IH]; [constructor |].
    inversion Ha; subst. constructor; [| apply IH; assumption].
    unfold is_space. rewrite H1. exact Hc.
Qed.

End MoreTextFacts.

Lemma normalize_alphabet_witness :
  db_sound ascii_db /\
  Forall (fun c => letter_or_space c = true)
         (@normalize ascii_db (u "RT @user: Cok GUZEL 123!")).
Proof.
  split; [exact ascii_db_sound |].
  apply (@normalize_alphabet ascii_db ascii_db_sound).
Defined.

Lemma normalize_blank_witness :
  Forall (fun c => ascii_space c = true) [32; 9; 10] /\
  @normalize ascii_db [32; 9; 10] = [].
Proof.
  split; [repeat constructor |].
  apply (@normalize_blank ascii_db). repeat constructor.
Defined.

(** ** The aggregator *)

Section MoreAggregatorFacts.
Context {si : set_impl}.
Variable FOLDER : str.

(** X5: the field of a category holds each of its texts once: for a
    non-empty list of texts it is the join, with [|], of a list without
    repetition that has exactly the texts of the list; for no text it is
    the empty string. *)
Theorem category_field_distinct (Hsi : set_order_ok si) (ss : list str) :
  category_field [] = Ret (VStr []) /\
  (ss <> [] ->
   exists l,
     category_field (map VStr ss) = Ret (VStr (join (u "|") l)) /\
     NoDup l /\ forall x, In x l <-> In x ss).
Proof.
  split; [reflexivity |]. intros Hne.
  exists (set_order ss). rewrite category_field_strings.
  destruct (Hsi ss) as [Hnd Hin].
  destruct ss; [congruence | auto].
Qed.

(** X6: an annotation that has a known tag and no [text] is handled like
    an unknown tag: the [KeyError] of the missing key is returned, not
    raised, and nothing is written, whatever follows in the submission. *)
Theorem json_to_csv_annotation_without_text (fs : store) filename
    page text tag more others :
  known_tag tag = true ->
  fs !! (FOLDER ++ u "/" ++ filename) =
    Some (Json (VList (
      VDict [ (u "page", page); (u "text", text);
              (u "annotations",
               VList (VDict [ (u "tag", VStr tag) ] :: more)) ] :: others))) ->
  json_to_csv FOLDER fs filename =
    (Ret (Some (KeyError (VStr (u "text")))), fs).
Proof.
  intros Hk Hf. unfold json_to_csv, json_load. rewrite Hf.
  cbn [mbind outcome_bind py_iter aggregate_events].
  unfold aggregate_event.
  match goal with |- context [getitem ?e "page"] =>
    change (getitem e "page") with (Ret page);
    change (getitem e "text") with (Ret text);
    change (getitem e "annotations")
      with (Ret (VList (VDict [ (u "tag", VStr tag) ] :: more))) end.
  cbn [mbind outcome_bind py_iter file_annotations].
  unfold file_annotation at 1.
  change (getitem (VDict [ (u "tag", VStr tag) ]) "tag") with (Ret (VStr tag)).
  cbn [mbind outcome_bind lookup_tag].
  unfold known_tag, category_of in Hk.
  destruct (dict_get tag translate_json); [| discriminate].
  reflexivity.
Qed.

(** X7: an annotation whose text is not a string is not caught by the
    [try]: with a known tag it is filed, and the [join] of its category
    raises a [TypeError] out of [json_to_csv]; nothing is written. *)
Theorem json_to_csv_text_not_a_string (fs : store) filename
    page text tag v others :
  known_tag tag = true ->
  is_string v = false ->
  fs !! (FOLDER ++ u "/" ++ filename) =
    Some (Json (VList (
      VDict [ (u "page", page); (u "text", text);
              (u "annotations",
               VList [ VDict [ (u "tag", VStr tag); (u "text", v) ] ]) ]
      :: others))) ->
  json_to_csv FOLDER fs filename =
    (Raise (TypeError "unhashable item or non-str item"), fs).
Proof.
  intros Hk Hv Hf. unfold json_to_csv, json_load. rewrite Hf.
  cbn [mbind outcome_bind py_iter aggregate_events].
  unfold aggregate_event.
  match goal with |- context [getitem ?e "page"] =>
    change (getitem e "page") with (Ret page);
    change (getitem e "text") with (Ret text);
    change (getitem e "annotations")
      with (Ret (VList [ VDict [ (u "tag", VStr tag); (u "text", v) ] ])) end.
  cbn [mbind outcome_bind py_iter file_annotations].
  unfold file_annotation.
  change (getitem (VDict [ (u "tag", VStr tag); (u "text", v) ]) "tag")
    with (Ret (VStr tag)).
  change (getitem (VDict [ (u "tag", VStr tag); (u "text", v) ]) "text")
    with (Ret v).
  cbn [mbind outcome_bind lookup_tag].
  unfold known_tag in Hk. fold (category_of tag).
  destruct (category_of tag) as [cat|] eqn:Hcat; [| discriminate].
  assert (Hs : strs_of [v] = None) by (destruct v; (discriminate || reflexivity)).
  destruct (category_cases _ _ Hcat) as [-> | [-> | [-> | ->]]];
    cbn [mbind outcome_bind]; unfold empty_temp_data;
    [rewrite append_company | rewrite append_positive
    | rewrite append_negative | rewrite append_notr];
    cbn [app fill_categories category_field mbind outcome_bind];
    rewrite Hs; reflexivity.
Qed.

Lemma replace_absent old new (s : str) :
  old <> [] -> contains old s = false -> replace old new s = s.
Proof.
  intros Ho. unfold replace. destruct old as [|a old]; [congruence |].
  induction s as [|c s IH]; [reflexivity |].
  cbn [contains replace_from]. intros Hc.
  apply orb_false_iff in Hc as [Hs Hc]. rewrite Hs, (IH Hc). reflexivity.
Qed.

(** X8: when the name given to [json_to_csv] does not contain [json], the
    table is written under that very name: a successful call replaces the
    submission it has just read by the aggregated table. *)
Theorem json_to_csv_overwrites_input (fs : store) filename events :
  contains (u "json") filename = false ->
  fs !! (FOLDER ++ u "/" ++ filename) = Some (Json (VList (map event_json events))) ->
  Forall (fun e => Forall (fun a => known_tag (an_tag a) = true) (ev_annotations e))
         events ->
  json_to_csv FOLDER fs filename =
    (Ret None, <[FOLDER ++ u "/" ++ filename := Csv (export_frame events)]> fs) /\
  snd (json_to_csv FOLDER fs filename) !! (FOLDER ++ u "/" ++ filename) =
    Some (Csv (export_frame events)).
Proof.
  intros Hc Hf Hk.
  rewrite (json_to_csv_spec FOLDER _ _ _ Hf).
  apply first_unknown_None in Hk. rewrite Hk.
  rewrite replace_absent by (discriminate || exact Hc).
  split; [reflexivity |]. cbn [snd]. apply lookup_insert_eq.
Qed.

End MoreAggregatorFacts.

(** ** The export routes *)

Section MoreExportFacts.
Context {si : set_impl} {sk : sink} {os : file_system} {pl : pandas_lib}.
Variable FOLDER : str.

Local Abbreviation missing_err :=
  (TypeError "iserr() missing 1 required positional argument: 'err'").

(** X9: when [dataset] is missing, [None] or [''] and [data] is missing,
    [None], [''], [{}] or [[]], the guard of [export_json] fires; its
    one-argument call of [res.iserr] raises a [TypeError], and neither a
    file nor a document is written. *)
Theorem export_json_nothing_provided w d :
  is_in (default VNone (dict_get (u "dataset") d)) [VNone; VStr []] = true ->
  is_in (default VNone (dict_get (u "data") d))
        [VNone; VStr []; VDict []; VList []] = true ->
  export_json FOLDER w (VDict d) = (Raise missing_err, w).
Proof.
  intros Hd Hdata. unfold export_json, nothing_provided, py_get.
  cbn [mbind outcome_bind]. rewrite Hd. cbn [mbind outcome_bind].
  rewrite Hdata. reflexivity.
Qed.

(** X10: when the guard lets the request through and [dataset] is not a
    string (it is missing while [data] is there, or it is a number, a list,
    ...), the call of [replace] raises an [AttributeError] before anything
    is written. *)
Theorem export_json_dataset_not_a_string w d :
  is_string (default VNone (dict_get (u "dataset") d)) = false ->
  nothing_provided (VDict d) = Ret false ->
  export_json FOLDER w (VDict d) =
    (Raise (AttributeError "object has no attribute 'replace'"), w).
Proof.
  intros Hs Hnp. unfold export_json. rewrite Hnp.
  unfold py_get. cbn [mbind outcome_bind].
  destruct (default VNone (dict_get (u "dataset") d)); try discriminate Hs;
    reflexivity.
Qed.

(** X11: when a well-shaped submission carries an unknown tag, its JSON
    file can be opened and its text can be encoded, [export_json] answers
    with the error response of that [KeyError]; the JSON file it wrote
    before aggregating stays, no table is written and nothing reaches the
    sink. *)
Theorem export_json_unknown_tag w s events t :
  s <> [] ->
  first_unknown events = Some t ->
  let filename := replace (u "csv") (u "json") (replace (u "xlsx") (u "json") s) in
  open_w (FOLDER ++ u "/" ++ filename) = None ->
  utf8_ok (VList (map event_json events)) = true ->
  export_json FOLDER w
    (VDict [ (u "dataset", VStr s); (u "data", VList (map event_json events)) ]) =
  (Ret (iserr "Something went wrong" (KeyError (VStr t))),
   {| files := <[FOLDER ++ u "/" ++ filename
                   := Json (VList (map event_json events))]> (files w);
      datasets := datasets w |}).
Proof.
  intros Hs Hu. cbv zeta. intros Ho He.
  pose proof (export_json_spec FOLDER w s events Hs) as H. cbv zeta in H.
  rewrite H, Ho, He, Hu. reflexivity.
Qed.

(** X12: when the two files of a well-shaped submission with known tags
    can be opened, its text can be encoded and the sink refuses the
    submission, [export_json] answers with the error response and stores
    no document, but the JSON file and the aggregated table are already
    written and stay. *)
Theorem export_json_sink_refuses w s events err :
  s <> [] ->
  first_unknown events = None ->
  let req := VDict [ (u "dataset", VStr s);
                     (u "data", VList (map event_json events)) ] in
  let filename := replace (u "csv") (u "json") (replace (u "xlsx") (u "json") s) in
  open_w (FOLDER ++ u "/" ++ filename) = None ->
  open_w (FOLDER ++ u "/" ++ replace (u "json") (u "csv") filename) = None ->
  utf8_ok (VList (map event_json events)) = true ->
  insert_one (datasets w) req = Some err ->
  export_json FOLDER w req =
  (Ret (iserr "Something went wrong" err),
   {| files :=
        <[FOLDER ++ u "/" ++ replace (u "json") (u "csv") filename
            := Csv (export_frame events)]>
          (<[FOLDER ++ u "/" ++ filename
               := Json (VList (map event_json events))]> (files w));
      datasets := datasets w |}).
Proof.
  intros Hs Hu. cbv zeta. intros Ho _ He Hi.
  pose proof (export_json_spec FOLDER w s events Hs) as H. cbv zeta in H.
  rewrite H, Ho, He, Hu, Hi. reflexivity.
Qed.

(** X13: [export_json] saves twice.  When its answer is the error response
    of the second save (the message that ends with a full stop), the
    submission has already been stored once by the first. *)
Theorem export_json_second_save w s events err :
  s <> [] ->
  let req := VDict [ (u "dataset", VStr s);
                     (u "data", VList (map event_json events)) ] in
  fst (export_json FOLDER w req) = Ret (iserr "Something went wrong." err) ->
  datasets (snd (export_json FOLDER w req)) = datasets w ++ [req] /\
  insert_one (datasets w) req = None /\
  insert_one (datasets w ++ [req]) req = Some err.
Proof.
  intros Hs. cbv zeta.
  pose proof (export_json_spec FOLDER w s events Hs) as H. cbv zeta in H.
  rewrite H. clear H.
  destruct (open_w _); [discriminate |].
  destruct (utf8_ok _); [| discriminate].
  destruct (first_unknown events); [discriminate |].
  destruct (insert_one (datasets w) _); [discriminate |].
  destruct (insert_one (datasets w ++ _) _); [| discriminate].
  cbn [fst snd datasets]. inversion 1; subst. auto.
Qed.


End MoreExportFacts.

Section DownloadFacts.
Context {si : set_impl}.
Variable FOLDER : str.

Lemma starts_with_json_app (s : str) :
  starts_with (u "json") s = false ->
  starts_with (u "json") (s ++ u ".json") = false.
Proof.
  change (u "json") with [106; 115; 111; 110].
  change (u ".json") with [46; 106; 115; 111; 110].
  destruct s as [|c1 [|c2 [|c3 [|c4 s]]]]; cbn [app starts_with]; intros H;
    repeat match goal with
    | |- context [?k =? ?c] =>
        is_var c; destruct (k =? c); cbn [andb starts_with] in *
    end; (reflexivity || discriminate H).
Qed.

Lemma replace_json_suffix (f : str) :
  contains (u "json") f = false ->
  replace (u "json") (u "csv") (f ++ u ".json") = f ++ u ".csv".
Proof.
  change (replace (u "json") (u "csv") (f ++ u ".json"))
    with (replace_from (u "json") (u "csv") O (f ++ u ".json")).
  induction f as [|c f IH]; [reflexivity |].
  cbn [contains]. intros Hc. apply orb_false_iff in Hc as [Hs Hc].
  change ((c :: f) ++ u ".json") with (c :: (f ++ u ".json")).
  cbn [replace_from].
  change (c :: f ++ u ".json") with ((c :: f) ++ u ".json").
  rewrite (starts_with_json_app _ Hs), (IH Hc). reflexivity.
Qed.

(** X15: for a name without [json] in it, whose submission file holds
    well-shaped events with known tags, [export_csv_from_json] aggregates
    and sends the table it has just written. *)
Theorem export_csv_from_json_sends_table (fs : store) filename events :
  contains (u "json") filename = false ->
  fs !! (FOLDER ++ u "/" ++ filename ++ u ".json") =
    Some (Json (VList (map event_json events))) ->
  Forall (fun e => Forall (fun a => known_tag (an_tag a) = true) (ev_annotations e))
         events ->
  export_csv_from_json FOLDER fs filename =
    (Ret (inr (Csv (export_frame events))),
     <[FOLDER ++ u "/" ++ filename ++ u ".csv" := Csv (export_frame events)]> fs).
Proof.
  intros Hc Hf Hk. unfold export_csv_from_json.
  rewrite (json_to_csv_spec FOLDER _ _ _ Hf).
  apply first_unknown_None in Hk. rewrite Hk.
  rewrite (replace_json_suffix _ Hc).
  unfold send_file. rewrite lookup_insert_eq. reflexivity.
Qed.

(** X16: when the submission carries an unknown tag,
    [export_csv_from_json] answers with the error response of its
    [KeyError] and sends no file; the store is left as it was. *)
Theorem export_csv_from_json_unknown_tag (fs : store) filename events t :
  fs !! (FOLDER ++ u "/" ++ filename ++ u ".json") =
    Some (Json (VList (map event_json events))) ->
  first_unknown events = Some t ->
  export_csv_from_json FOLDER fs filename =
    (Ret (inl (iserr download_failed (KeyError (VStr t)))), fs).
Proof.
  intros Hf Hu. unfold export_csv_from_json.
  rewrite (json_to_csv_spec FOLDER _ _ _ Hf), Hu. reflexivity.
Qed.

End DownloadFacts.

(** ** Cleaning, mirroring and the editor *)

Section MoreDatasetFacts.
Context {db : unicode_db} {pl : pandas_lib}.

Lemma lookup_apply_writes (writes : list (str * file)) (fs : store) (path : str) :
  apply_writes writes fs !! path =
  match dict_get path writes with
  | Some f => Some f
  | None => fs !! path
  end.
Proof.
  induction writes as [|[k v] writes IH]; [reflexivity |].
  cbn [apply_writes foldr dict_get fst snd] in *.
  rewrite lookup_insert. destruct (decide (path = k)) as [->|Hne].
  - rewrite decide_True by reflexivity. reflexivity.
  - rewrite decide_False by congruence. exact IH.
Qed.

Lemma apply_writes_twice (writes : list (str * file)) (fs : store) :
  apply_writes writes (apply_writes writes fs) = apply_writes writes fs.
Proof.
  apply map_eq. intros path. rewrite !lookup_apply_writes.
  destruct (dict_get path writes); reflexivity.
Qed.

Lemma load_raw_ext (fs fs' : store) filename :
  fs' !! (UPLOADS ++ filename) = fs !! (UPLOADS ++ filename) ->
  load_raw fs' filename = load_raw fs filename.
Proof.
  intros H. unfold load_raw, read_csv, read_excel. rewrite H. reflexivity.
Qed.

(** [data_cleaner] reads the raw file only, and what it does to a store is
    a list of writes under the two names of the cleaned-data folder. *)
Lemma data_cleaner_as_writes (fs : store) filename :
  exists writes,
    Forall (fun kv => kv.1 = CLEAN_DATA ++ filename \/
                      kv.1 = CLEAN_DATA ++ replace (u "csv") (u "xlsx") filename)
           writes /\
    forall fs' : store,
      fs' !! (UPLOADS ++ filename) = fs !! (UPLOADS ++ filename) ->
      data_cleaner fs' filename =
      (fst (data_cleaner fs filename), apply_writes writes fs').
Proof.
  unfold data_cleaner.
  destruct (load_raw fs filename ≫= _) as [df|e] eqn:E.
  - unfold csv_to_xlsx, read_csv. rewrite lookup_insert_eq.
    destruct (sheet_of df) as [sheet|e'] eqn:Es.
    + exists [ (CLEAN_DATA ++ replace (u "csv") (u "xlsx") filename, Xlsx sheet);
               (CLEAN_DATA ++ filename, Csv df) ].
      split; [constructor; [right; reflexivity |];
              constructor; [left; reflexivity | constructor] |].
      intros fs' H. rewrite (load_raw_ext _ _ _ H), E.
      rewrite lookup_insert_eq, Es. reflexivity.
    + exists [ (CLEAN_DATA ++ filename, Csv df) ].
      split; [constructor; [left; reflexivity | constructor] |].
      intros fs' H. rewrite (load_raw_ext _ _ _ H), E.
      rewrite lookup_insert_eq, Es. reflexivity.
  - exists []. split; [constructor |].
    intros fs' H. rewrite (load_raw_ext _ _ _ H), E. reflexivity.
Qed.

Lemma raw_path_differs (f g : str) :
  (length f <= length g)%nat -> UPLOADS ++ f <> CLEAN_DATA ++ g.
Proof.
  intros Hl Heq.
  change CLEAN_DATA with (UPLOADS ++ u "clean_data/") in Heq.
  rewrite <- app_assoc in Heq. apply app_inv_head in Heq.
  apply (f_equal length) in Heq. rewrite length_app in Heq.
  change (length (u "clean_data/")) with 11%nat in Heq. lia.
Qed.

Lemma mirror_not_shorter (f : str) :
  (length f <= length (replace (u "csv") (u "xlsx") f))%nat.
Proof.
  pose proof (replace_from_length (u "csv") (u "xlsx") f O) as H.
  change (replace (u "csv") (u "xlsx") f)
    with (replace_from (u "csv") (u "xlsx") O f).
  change (length (u "csv")) with 3%nat in H.
  change (length (u "xlsx")) with 4%nat in H.
  specialize (H ltac:(lia) ltac:(discriminate)). lia.
Qed.

Lemma raw_not_written (writes : list (str * file)) filename :
  Forall (fun kv : str * file =>
            kv.1 = CLEAN_DATA ++ filename \/
            kv.1 = CLEAN_DATA ++ replace (u "csv") (u "xlsx") filename) writes ->
  dict_get (UPLOADS ++ filename) writes = None.
Proof.
  induction 1 as [|[k v] writes Hk Hw IH]; [reflexivity |].
  cbn [dict_get fst] in *. rewrite decide_False; [exact IH |].
  destruct Hk as [-> | ->].
  - apply raw_path_differs. lia.
  - apply raw_path_differs, mirror_not_shorter.
Qed.

(** X17: [data_cleaner] never changes the uploaded file it cleans: whatever
    the name and the store, the file under [static/uploads/] is afterwards
    what it was. *)
Theorem data_cleaner_keeps_upload (fs : store) filename :
  snd (data_cleaner fs filename) !! (UPLOADS ++ filename) =
  fs !! (UPLOADS ++ filename).
Proof.
  destruct (data_cleaner_as_writes fs filename) as (writes & Hw & H).
  rewrite (H fs eq_refl). cbn [snd].
  rewrite lookup_apply_writes, (raw_not_written _ _ Hw). reflexivity.
Qed.

(** X18: cleaning a dataset a second time changes nothing: the response is
    the same and the store is the store left by the first run. *)
Theorem data_cleaner_idempotent (fs : store) filename :
  data_cleaner (snd (data_cleaner fs filename)) filename =
  data_cleaner fs filename.
Proof.
  destruct (data_cleaner_as_writes fs filename) as (writes & Hw & H).
  pose proof (H fs eq_refl) as H1.
  assert (Hraw : snd (data_cleaner fs filename) !! (UPLOADS ++ filename) =
                 fs !! (UPLOADS ++ filename)).
  { rewrite H1. cbn [snd].
    rewrite lookup_apply_writes, (raw_not_written _ _ Hw). reflexivity. }
  rewrite (H _ Hraw). rewrite H1 at 2 3. cbn [fst snd].
  rewrite apply_writes_twice. reflexivity.
Qed.

(** X19: for a name that contains neither [csv] nor [xslx],
    [data_cleaner] loads nothing: it answers with the error response of
    its own [FileNotFoundError] and leaves the store as it was, whatever
    the store holds under that name. *)
Theorem data_cleaner_unrecognised_name (fs : store) filename :
  contains (u "csv") filename = false ->
  contains (u "xslx") filename = false ->
  data_cleaner fs filename =
  (iserr cleaning_failed
     (FileNotFoundError "DataFrame is not implemented via files."), fs).
Proof.
  intros Hc Hx. unfold data_cleaner, load_raw. rewrite Hc, Hx. reflexivity.
Qed.

Lemma traverse_clean_raise texts :
  Exists (fun v => is_string v = false) texts ->
  traverse clean_cell texts =
  Raise (AttributeError "object has no attribute 'translate'").
Proof.
  induction 1 as [v texts Hv | v texts Hv IH]; cbn [traverse].
  - destruct v; try discriminate Hv; reflexivity.
  - rewrite IH. destruct v; reflexivity.
Qed.

(** X20: when the loaded table has no [text] column, or a [text] cell that
    is not a string (a number, a missing value), cleaning fails with an
    [AttributeError] turned into the error response, and nothing is
    written. *)
Theorem data_cleaner_bad_text (fs : store) filename df0 :
  load_raw fs filename = Ret df0 ->
  (column (u "text") df0 = None \/
   exists texts, column (u "text") df0 = Some texts /\
                 Exists (fun v => is_string v = false) texts) ->
  exists msg,
    data_cleaner fs filename = (iserr cleaning_failed (AttributeError msg), fs).
Proof.
  intros Hl Hbad. unfold data_cleaner, text_attr. rewrite Hl.
  cbn [mbind outcome_bind].
  destruct Hbad as [-> | (texts & -> & Hex)].
  - eexists. reflexivity.
  - cbn [mbind outcome_bind]. rewrite (traverse_clean_raise _ Hex).
    eexists. reflexivity.
Qed.

Lemma traverse_clean_normalize (ss : list str) :
  traverse clean_cell (map VStr ss) = Ret (map (fun s => VStr (normalize s)) ss).
Proof.
  induction ss as [|s ss IH]; [reflexivity |].
  cbn [map traverse clean_cell mbind outcome_bind]. rewrite IH. reflexivity.
Qed.

Lemma column_set_column_eq name cells (df : frame) :
  column name (set_column name cells df) = Some cells.
Proof.
  unfold set_column, column.
  destruct (dict_get name df) as [old|] eqn:E.
  - induction df as [|[k c] df IH]; [discriminate |].
    cbn [map dict_get fst snd] in *.
    destruct (decide (name = k)) as [->|Hk].
    + rewrite decide_True by reflexivity. cbn [dict_get].
      rewrite decide_True by reflexivity. reflexivity.
    + rewrite decide_False by congruence. cbn [dict_get].
      rewrite decide_False by congruence. apply IH, E.
  - induction df as [|[k c] df IH]; cbn [app dict_get] in *.
    + rewrite decide_True by reflexivity. reflexivity.
    + destruct (decide (name = k)); [discriminate | apply IH, E].
Qed.

(** X21: cleaning a delimited file whose [text] cells are strings writes,
    under the same name in the cleaned-data folder, the table with a
    [clean_text] column that holds the normalised text of each row, in
    order; every other column is as in the upload. *)
Theorem data_cleaner_adds_clean_text (fs : store) filename df0 (ss : list str) :
  contains (u "csv") filename = true ->
  contains (u "xslx") filename = false ->
  fs !! (UPLOADS ++ filename) = Some (Csv df0) ->
  column (u "text") df0 = Some (map VStr ss) ->
  exists df1,
    snd (data_cleaner fs filename) !! (CLEAN_DATA ++ filename) = Some (Csv df1) /\
    column (u "clean_text") df1 = Some (map (fun s => VStr (normalize s)) ss) /\
    forall n, n <> u "clean_text" -> column n df1 = column n df0.
Proof.
  intros Hc Hx Hf Ht.
  exists (set_column (u "clean_text") (map (fun s => VStr (normalize s)) ss) df0).
  split; [| split].
  - unfold data_cleaner, load_raw, read_csv, text_attr.
    rewrite Hc, Hx, Hf. cbn [fmap outcome_fmap mbind outcome_bind].
    rewrite Ht. cbn [mbind outcome_bind]. rewrite traverse_clean_normalize.
    cbn [mbind outcome_bind].
    unfold csv_to_xlsx, read_csv. rewrite lookup_insert_eq.
    destruct (sheet_of _); cbn [snd].
    + rewrite lookup_insert_ne by (apply mirror_name_differs, Hc).
      apply lookup_insert_eq.
    + apply lookup_insert_eq.
  - apply column_set_column_eq.
  - intros n Hn. apply column_set_column_ne, Hn.
Qed.

(** X22: [csv_to_xlsx] writes the workbook under the name with every [csv]
    turned into [xlsx].  When the name contains [csv] the delimited file
    stays beside it; when it does not, the two names are one and the
    workbook takes the place of the delimited file. *)
Theorem csv_to_xlsx_target (fs : store) filename df sheet :
  fs !! (CLEAN_DATA ++ filename) = Some (Csv df) ->
  sheet_of df = Ret sheet ->
  snd (csv_to_xlsx fs filename)
    !! (CLEAN_DATA ++ replace (u "csv") (u "xlsx") filename) = Some (Xlsx sheet) /\
  (contains (u "csv") filename = true ->
   snd (csv_to_xlsx fs filename) !! (CLEAN_DATA ++ filename) = Some (Csv df)) /\
  (contains (u "csv") filename = false ->
   snd (csv_to_xlsx fs filename) !! (CLEAN_DATA ++ filename) = Some (Xlsx sheet)).
Proof.
  intros Hf Hs. unfold csv_to_xlsx, read_csv. rewrite Hf, Hs. cbn [snd].
  split; [apply lookup_insert_eq |]. split; intros Hc.
  - rewrite lookup_insert_ne by (apply mirror_name_differs, Hc). exact Hf.
  - rewrite (replace_absent (u "csv") (u "xlsx") filename) by (discriminate || exact Hc).
    apply lookup_insert_eq.
Qed.

Lemma editor_entries_pairs (A B : list value) :
  editor_entries (zip_with (fun i t => [i; t]) A B) =
  Some (zip_with (fun i t => VDict [ (u "id", i); (u "text", t) ]) A B).
Proof.
  revert B. induction A as [|a A IH]; intros [|b B]; try reflexivity.
  cbn [zip_with editor_entries]. rewrite IH. reflexivity.
Qed.

Lemma zip_with_map_r {X Y Z W} (f : X -> Z -> W) (g : Y -> Z) (A : list X) :
  forall B : list Y,
  zip_with f A (map g B) = zip_with (fun a b => f a (g b)) A B.
Proof.
  induction A as [|a A IH]; intros [|b B]; try reflexivity.
  cbn [map zip_with]. rewrite IH. reflexivity.
Qed.

(** X23: the editor takes the first cell of each extracted row as [id] and
    the second as [text].  For a file whose [id] column stands before its
    [text] column the entries hold the cast identifier and the cast text of
    each row, in order; for a file with [text] before [id] the two are
    exchanged: [id] holds the text. *)
Theorem label_data_editor_by_position (fs : store) filename df ids texts ids' :
  load_clean fs filename = Ret df ->
  column (u "id") df = Some ids ->
  column (u "text") df = Some texts ->
  length ids = length texts ->
  traverse astype_int64 ids = Ret ids' ->
  (map fst df = [u "id"; u "text"] ->
   label_data_editor fs filename =
   Dataset (zip_with (fun i t => VDict [ (u "id", i); (u "text", astype_string t) ])
                     ids' texts)) /\
  (map fst df = [u "text"; u "id"] ->
   label_data_editor fs filename =
   Dataset (zip_with (fun i t => VDict [ (u "id", astype_string t); (u "text", i) ])
                     ids' texts)).
Proof.
  intros Hl Hi Ht Hlen Hc. unfold label_data_editor.
  rewrite (extract_loaded _ _ _ _ _ Hl Hi Ht Hlen), Hc.
  cbn [mbind outcome_bind].
  split; intros ->.
  - change (row_in_order [u "id"; u "text"]) with (fun i t : value => [i; t]).
    rewrite editor_entries_pairs, zip_with_map_r. reflexivity.
  - change (row_in_order [u "text"; u "id"]) with (fun i t : value => [t; i]).
    rewrite zip_with_map_r.
    assert (H : forall A B,
      editor_entries (zip_with (fun (a b : value) => [astype_string b; a]) A B) =
      Some (zip_with (fun i t => VDict [ (u "id", astype_string t); (u "text", i) ])
                     A B)).
    { induction A as [|a A IH]; intros [|b B]; try reflexivity.
      cbn [zip_with editor_entries]. rewrite IH. reflexivity. }
    rewrite H. reflexivity.
Qed.

End MoreDatasetFacts.

(** ** File names *)

Section FileNameFacts.
Context {db : unicode_db} {si : set_impl}.

Lemma rsplit_last_none c (s : str) :
  has_char c s = false -> rsplit_last c s = None.
Proof.
  unfold has_char. induction s as [|x s IH]; [reflexivity |].
  cbn [existsb rsplit_last]. intros H. apply orb_false_iff in H as [Hx Hs].
  rewrite (IH Hs). rewrite N.eqb_sym, Hx. reflexivity.
Qed.

Lemma rsplit_last_app c (base ext : str) :
  has_char c ext = false ->
  rsplit_last c (base ++ c :: ext) = Some (base, ext).
Proof.
  intros He. induction base as [|x base IH].
  - cbn [app rsplit_last]. rewrite (rsplit_last_none _ _ He), N.eqb_refl. reflexivity.
  - cbn [app rsplit_last]. rewrite IH. reflexivity.
Qed.

(** X24: [remove_file_extensions] cuts each name at its last dot: a name
    [base.ext] whose extension has no dot gives back [base] (dots inside
    [base] stay), and a name without a dot is left whole. *)
Theorem remove_file_extensions_cuts_last_dot :
  (forall (bases : list str) (ext : str),
     has_char 46 ext = false ->
     remove_file_extensions (map (fun b => b ++ u "." ++ ext) bases) = bases) /\
  (forall items : list str,
     Forall (fun item => has_char 46 item = false) items ->
     remove_file_extensions items = items).
Proof.
  unfold remove_file_extensions, rsplit1. split.
  - intros bases ext He. rewrite map_map.
    induction bases as [|b bases IH]; [reflexivity |].
    cbn [map]. rewrite IH. f_equal.
    change (u "." ++ ext) with (46 :: ext).
    rewrite (rsplit_last_app 46 b ext He). reflexivity.
  - induction 1 as [|item items Hi Hs IH]; [reflexivity |].
    cbn [map]. rewrite IH, (rsplit_last_none _ _ Hi). reflexivity.
Qed.

Lemma has_char_app c (a b : str) :
  has_char c (a ++ b) = has_char c a || has_char c b.
Proof. unfold has_char. apply existsb_app. Qed.

(** X25: [allowed_file] looks at what follows the last dot, lower-cased: a
    name [base.ext] is allowed exactly when the lower-cased [ext] is [csv]
    or [xlsx], whatever [base] is, and a name without a dot is refused. *)
Theorem allowed_file_by_extension :
  (forall base ext : str,
     has_char 46 ext = false ->
     allowed_file (base ++ u "." ++ ext) =
     bool_decide (lower ext = u "csv" \/ lower ext = u "xlsx")) /\
  (forall name : str, has_char 46 name = false -> allowed_file name = false).
Proof.
  unfold allowed_file, rsplit1. split.
  - intros base ext He. change (u "." ++ ext) with (46 :: ext).
    rewrite (rsplit_last_app 46 base ext He), has_char_app.
    change (has_char 46 (46 :: ext)) with true. rewrite orb_true_r. cbn [andb].
    apply bool_decide_ext. unfold ALLOWED_EXTENSIONS.
    rewrite !elem_of_cons, elem_of_nil. tauto.
  - intros name Hn. rewrite Hn. reflexivity.
Qed.

Lemma last5_json (file : str) :
  last5 file = u ".json" -> exists base, file = base ++ u ".json".
Proof.
  unfold last5. intros H. exists (take (length file - 5) file).
  rewrite <- H. symmetry. apply take_drop.
Qed.

(** X26: every entry of the list of labelled datasets that [export_data]
    shows is the name, without its [.json], of a file of the folder: the
    route [export_csv_from_json], which appends [.json] to the entry, is
    asked for a file that is there. *)
Theorem export_data_json_entries (names : list str) (b : str) :
  In b (snd (export_data_lists names)) -> In (b ++ u ".json") names.
Proof.
  unfold export_data_lists, remove_file_extensions. cbn [snd].
  rewrite in_map_iff. intros (file & Hb & Hin).
  apply List.filter_In in Hin as [Hin Hj]. apply bool_decide_eq_true in Hj.
  destruct (last5_json file Hj) as [base ->].
  unfold rsplit1 in Hb. change (u ".json") with (46 :: u "json") in Hb.
  rewrite (rsplit_last_app 46 base (u "json") eq_refl) in Hb.
  cbn [hd] in Hb. subst b. exact Hin.
Qed.

(** X27: the list of datasets that [export_data] shows has no repetition,
    and holds exactly the names, cut at their last dot, of the files that
    are not submissions ([.json] at the end) and do not contain
    [.gitkeep]: the delimited file and the workbook of one dataset make one
    entry. *)
Theorem export_data_file_entries (Hsi : set_order_ok si) (names : list str) :
  NoDup (fst (export_data_lists names)) /\
  forall b,
    In b (fst (export_data_lists names)) <->
    exists file,
      In file names /\ contains (u ".gitkeep") file = false /\
      last5 file <> u ".json" /\ hd [] (rsplit1 46 file) = b.
Proof.
  unfold export_data_lists. cbn [fst].
  destruct (Hsi (remove_file_extensions
                   (List.filter (fun file => negb (contains (u ".gitkeep") file) &&
                                   negb (bool_decide (last5 file = u ".json"))) names)))
    as [Hnd Hin].
  split; [exact Hnd |]. intros b. rewrite Hin.
  unfold remove_file_extensions. rewrite in_map_iff.
  split.
  - intros (file & Hb & Hf). apply List.filter_In in Hf as [Hf Hc].
    apply andb_true_iff in Hc as [Hg Hj].
    apply negb_true_iff in Hg, Hj. apply bool_decide_eq_false in Hj.
    exists file. auto.
  - intros (file & Hf & Hg & Hj & Hb). exists file. split; [exact Hb |].
    apply List.filter_In. split; [exact Hf |].
    rewrite Hg. cbn [negb andb]. apply negb_true_iff, bool_decide_eq_false, Hj.
Qed.

End FileNameFacts.

(** ** The further properties at concrete inputs *)

Lemma category_field_distinct_witness :
  @category_field first_seen [] = Ret (VStr []) /\
  ([u "a"; u "b"; u "a"] <> [] ->
   exists l,
     @category_field first_seen (map VStr [u "a"; u "b"; u "a"]) =
       Ret (VStr (join (u "|") l)) /\
     NoDup l /\ forall x, In x l <-> In x [u "a"; u "b"; u "a"]).
Proof.
  exact (@category_field_distinct first_seen first_seen_ok [u "a"; u "b"; u "a"]).
Defined.

Lemma json_to_csv_annotation_without_text_witness :
  @json_to_csv first_seen sample_folder textless_store (u "d.json") =
    (Ret (Some (KeyError (VStr (u "text")))), textless_store).
Proof.
  apply (@json_to_csv_annotation_without_text first_seen sample_folder
           textless_store (u "d.json") (VInt 1) (VStr (u "x")) (u "FIRMA") [] []);
    reflexivity.
Defined.

Lemma json_to_csv_text_not_a_string_witness :
  @json_to_csv first_seen sample_folder number_text_store (u "d.json") =
    (Raise (TypeError "unhashable item or non-str item"), number_text_store).
Proof.
  apply (@json_to_csv_text_not_a_string first_seen sample_folder
           number_text_store (u "d.json") (VInt 1) (VStr (u "x")) (u "FIRMA")
           (VInt 5) []);
    reflexivity.
Defined.

Lemma json_to_csv_overwrites_input_witness :
  @json_to_csv first_seen sample_folder plain_name_store (u "d.txt") =
    (Ret None,
     <[sample_folder ++ u "/" ++ u "d.txt"
         := Csv (@export_frame first_seen [scenario_event])]> plain_name_store) /\
  snd (@json_to_csv first_seen sample_folder plain_name_store (u "d.txt"))
    !! (sample_folder ++ u "/" ++ u "d.txt") =
    Some (Csv (@export_frame first_seen [scenario_event])).
Proof.
  apply (@json_to_csv_overwrites_input first_seen sample_folder plain_name_store
           (u "d.txt") [scenario_event]).
  - reflexivity.
  - reflexivity.
  - repeat constructor.
Defined.

Lemma export_json_nothing_provided_witness :
  @export_json first_seen sample_folder accepting_sink open_all empty_world (VDict []) =
    (Raise (TypeError "iserr() missing 1 required positional argument: 'err'"),
     empty_world).
Proof.
  apply (@export_json_nothing_provided first_seen accepting_sink open_all sample_folder
           empty_world []); reflexivity.
Defined.

Lemma export_json_dataset_not_a_string_witness :
  @export_json first_seen sample_folder accepting_sink open_all empty_world
    (VDict [ (u "data", VList [scenario_json]) ]) =
    (Raise (AttributeError "object has no attribute 'replace'"), empty_world).
Proof.
  apply (@export_json_dataset_not_a_string first_seen accepting_sink open_all sample_folder
           empty_world [ (u "data", VList [scenario_json]) ]); reflexivity.
Defined.

Lemma export_json_unknown_tag_witness :
  @export_json first_seen sample_folder accepting_sink open_all empty_world
    (VDict [ (u "dataset", VStr (u "d.csv"));
             (u "data", VList (map event_json [scenario_event; unknown_event])) ]) =
  (Ret (iserr "Something went wrong" (KeyError (VStr (u "UNKNOWN")))),
   {| files := {[ sample_folder ++ u "/" ++ u "d.json"
                    := Json (VList (map event_json [scenario_event; unknown_event])) ]};
      datasets := [] |}).
Proof.
  exact (@export_json_unknown_tag first_seen accepting_sink open_all sample_folder
           empty_world (u "d.csv") [scenario_event; unknown_event] (u "UNKNOWN")
           ltac:(discriminate) eq_refl eq_refl eq_refl).
Defined.

Lemma export_json_sink_refuses_witness :
  @export_json first_seen sample_folder refusing_sink open_all empty_world scenario_request =
  (Ret (iserr "Something went wrong" (ValueError "refused")),
   {| files :=
        <[sample_folder ++ u "/" ++ u "d.csv"
            := Csv (@export_frame first_seen [scenario_event])]>
          {[ sample_folder ++ u "/" ++ u "d.json" := Json (VList [scenario_json]) ]};
      datasets := [] |}).
Proof.
  exact (@export_json_sink_refuses first_seen refusing_sink open_all sample_folder
           empty_world (u "d.csv") [scenario_event] (ValueError "refused")
           ltac:(discriminate) eq_refl eq_refl eq_refl eq_refl eq_refl).
Defined.

Lemma export_json_second_save_witness :
  datasets (snd (@export_json first_seen sample_folder single_sink open_all empty_world
                   scenario_request)) = [scenario_request] /\
  @insert_one single_sink [] scenario_request = None /\
  @insert_one single_sink [scenario_request] scenario_request =
    Some (ValueError "duplicate key").
Proof.
  exact (@export_json_second_save first_seen single_sink open_all sample_folder
           empty_world (u "d.csv") [scenario_event] (ValueError "duplicate key")
           ltac:(discriminate) eq_refl).
Defined.


Lemma export_csv_from_json_sends_table_witness :
  @export_csv_from_json first_seen sample_folder scenario_store (u "d") =
    (Ret (inr (Csv (@export_frame first_seen [scenario_event]))),
     <[sample_folder ++ u "/" ++ u "d" ++ u ".csv"
         := Csv (@export_frame first_seen [scenario_event])]> scenario_store).
Proof.
  apply (@export_csv_from_json_sends_table first_seen sample_folder scenario_store
           (u "d") [scenario_event]).
  - reflexivity.
  - reflexivity.
  - repeat constructor.
Defined.

Lemma export_csv_from_json_unknown_tag_witness :
  @export_csv_from_json first_seen sample_folder mixed_store (u "d") =
    (Ret (inl (iserr download_failed (KeyError (VStr (u "UNKNOWN"))))), mixed_store).
Proof.
  apply (@export_csv_from_json_unknown_tag first_seen sample_folder mixed_store
           (u "d") [scenario_event; unknown_event] (u "UNKNOWN"));
    reflexivity.
Defined.

Lemma data_cleaner_unrecognised_name_witness :
  @data_cleaner ascii_db strict_pandas upload_store (u "a.txt") =
  (iserr cleaning_failed
     (FileNotFoundError "DataFrame is not implemented via files."), upload_store).
Proof.
  apply (@data_cleaner_unrecognised_name ascii_db strict_pandas upload_store
           (u "a.txt")); reflexivity.
Defined.

Lemma data_cleaner_bad_text_witness :
  exists msg,
    @data_cleaner ascii_db strict_pandas no_text_upload (u "a.csv") =
    (iserr cleaning_failed (AttributeError msg), no_text_upload).
Proof.
  apply (@data_cleaner_bad_text ascii_db strict_pandas no_text_upload (u "a.csv")
           [ (u "id", [VInt 1]) ]).
  - reflexivity.
  - left. reflexivity.
Defined.

Lemma data_cleaner_adds_clean_text_witness :
  exists df1,
    snd (@data_cleaner ascii_db strict_pandas upload_store (u "a.csv"))
      !! (CLEAN_DATA ++ u "a.csv") = Some (Csv df1) /\
    column (u "clean_text") df1 =
      Some (map (fun s => VStr (@normalize ascii_db s)) [u "Merhaba! 12"; u "a b"]) /\
    forall n, n <> u "clean_text" -> column n df1 = column n sample_raw.
Proof.
  apply (@data_cleaner_adds_clean_text ascii_db strict_pandas upload_store
           (u "a.csv") sample_raw [u "Merhaba! 12"; u "a b"]);
    reflexivity.
Defined.

Lemma csv_to_xlsx_target_witness :
  exists df,
    cleaned_store !! (CLEAN_DATA ++ u "a.csv") = Some (Csv df) /\
    snd (@csv_to_xlsx strict_pandas cleaned_store (u "a.csv"))
      !! (CLEAN_DATA ++ u "a.xlsx") = Some (Xlsx df) /\
    snd (@csv_to_xlsx strict_pandas cleaned_store (u "a.csv"))
      !! (CLEAN_DATA ++ u "a.csv") = Some (Csv df).
Proof.
  exists (sample_raw ++ [ (u "clean_text", [VStr (u "merhaba "); VStr (u "a b")]) ]).
  destruct (@csv_to_xlsx_target strict_pandas cleaned_store (u "a.csv")
              (sample_raw ++ [ (u "clean_text", [VStr (u "merhaba "); VStr (u "a b")]) ])
              (sample_raw ++ [ (u "clean_text", [VStr (u "merhaba "); VStr (u "a b")]) ])
              eq_refl eq_refl) as (H1 & H2 & _).
  split; [reflexivity |]. split; [exact H1 | exact (H2 eq_refl)].
Defined.

Lemma label_data_editor_by_position_witness :
  @label_data_editor strict_pandas cleaned_store (u "a.csv") =
  Dataset [ VDict [ (u "id", VInt 1); (u "text", VStr (u "Merhaba! 12")) ];
            VDict [ (u "id", VInt 2); (u "text", VStr (u "a b")) ] ].
Proof.
  destruct (@label_data_editor_by_position strict_pandas cleaned_store (u "a.csv")
              sample_raw [VInt 1; VInt 2] [VStr (u "Merhaba! 12"); VStr (u "a b")]
              [VInt 1; VInt 2] eq_refl eq_refl eq_refl eq_refl eq_refl) as [H _].
  exact (H eq_refl).
Defined.

Lemma export_data_json_entries_witness :
  In (u "d" ++ u ".json") [u "d.csv"; u "d.xlsx"; u "d.json"; u ".gitkeep"].
Proof.
  apply (@export_data_json_entries first_seen
           [u "d.csv"; u "d.xlsx"; u "d.json"; u ".gitkeep"] (u "d")).
  left. reflexivity.
Defined.

Lemma export_data_file_entries_witness :
  NoDup (fst (@export_data_lists first_seen
                [u "d.csv"; u "d.xlsx"; u "d.json"; u ".gitkeep"])) /\
  fst (@export_data_lists first_seen
         [u "d.csv"; u "d.xlsx"; u "d.json"; u ".gitkeep"]) = [u "d"].
Proof.
  split; [| reflexivity].
  apply (@export_data_file_entries first_seen first_seen_ok
           [u "d.csv"; u "d.xlsx"; u "d.json"; u ".gitkeep"]).
Defined.

Lemma remove_file_extensions_cuts_last_dot_witness :
  has_char 46 (u "csv") = false /\
  remove_file_extensions (map (fun b => b ++ u "." ++ u "csv") [u "a.b"; u "c"]) =
    [u "a.b"; u "c"].
Proof.
  split; [reflexivity |].
  apply (proj1 remove_file_extensions_cuts_last_dot [u "a.b"; u "c"] (u "csv")).
  reflexivity.
Defined.

Lemma allowed_file_by_extension_witness :
  @allowed_file ascii_db (u "data.v2" ++ u "." ++ u "CSV") =
    bool_decide (@lower ascii_db (u "CSV") = u "csv" \/
                 @lower ascii_db (u "CSV") = u "xlsx").
Proof.
  apply (proj1 (@allowed_file_by_extension ascii_db) (u "data.v2") (u "CSV")).
  reflexivity.
Defined.
